(** * TruE-MAN: the escrow ledger [contract1] and the admin panel's sync bridge

    A shallow embedding of
    - [src/contracts/contract1/contract1.sol]: the request ledger, with
      Solidity 0.8 checked [uint256] arithmetic, [require] guards as an
      error result, and the low-level [call{value: ..}] as an explicit
      interaction with the recipient (who may reject, and who may call back
      into the ledger before returning);
    - the admin panel server ([fetchWithRetry] and the confirm / cancel
      handlers), as state passing over an explicit world. *)

From stdpp Require Import gmap strings list sorting.
From Stdlib Require Import ZArith Lia Permutation Sorted.
From Stdlib Require DecimalString DecimalPos DecimalZ.

Open Scope Z_scope.

(** ** Machine integers and results *)

Definition MAX_UINT256 : Z := 2 ^ 256 - 1.

Definition is_uint256 (x : Z) : Prop := 0 <= x <= MAX_UINT256.

(** Solidity 0.8 arithmetic reverts (Panic 0x11) instead of wrapping. *)
Definition checked_mul (a b : Z) : option Z :=
  if a * b <=? MAX_UINT256 then Some (a * b) else None.

Definition checked_add (a b : Z) : option Z :=
  if a + b <=? MAX_UINT256 then Some (a + b) else None.

(** [1 ether] in wei, and the literal [0.00012 ether]. *)
Definition ether : Z := 10 ^ 18.
Definition RATE : Z := 12 * 10 ^ 13.

Module contract1.

(** *** Data model *)

Inductive Status := Created | Confirmed | Cancelled.

#[global] Instance Status_eq_dec : EqDecision Status.
Proof. solve_decision. Defined.

Record Request := mkRequest {
  id : Z;
  buyerOperator : Z;
  numUsers : Z;
  durationMins : Z;
  orderDetails : Z;
  status : Status;
  createdAt : Z;
  amountPaid : Z
}.

(** The value a [mapping(uint256 => Request)] holds at a key that was never
    written: every field zero, and enum value 0 is [Created]. *)
Definition zeroRequest : Request := mkRequest 0 0 0 0 0 Created 0 0.

(** What a committed transaction leaves behind besides storage: the ether
    sent out by the ledger and the events it emitted (newest first). *)
Inductive Effect :=
| Transfer (to amount : Z)
| RequestCreated (rid buyer users mins details paid : Z)
| RequestConfirmed (rid : Z)
| RequestCancelled (rid : Z) (reason : string).

Record State := mkState {
  deployerOperator : Z;
  nextRequestId : Z;
  requests : gmap Z Request;
  balance : Z;            (* ether held by the contract account *)
  trace : list Effect
}.

(** [require] messages and the arithmetic panic. *)
Inductive Error :=
| NotDeployer          (* "Not the deployer Operator" *)
| InvalidBuyer         (* "Invalid buyerOperator" *)
| InsufficientAmount   (* "Insufficient amount on buyer's account" *)
| NotCreated           (* "The request is not in 'Created' status" *)
| PaymentFailed        (* "Payment failed" *)
| RefundFailed         (* "Refund failed" *)
| Panic.               (* checked arithmetic overflow *)

Definition message (e : Error) : string :=
  match e with
  | NotDeployer => "Not the deployer Operator"
  | InvalidBuyer => "Invalid buyerOperator"
  | InsufficientAmount => "Insufficient amount on buyer's account"
  | NotCreated => "The request is not in 'Created' status"
  | PaymentFailed => "Payment failed"
  | RefundFailed => "Refund failed"
  | Panic => "panic code 0x11"
  end.

Inductive Result (A : Type) :=
| Ok (a : A)
| Revert (e : Error).
Arguments Ok {A} a.
Arguments Revert {A} e.

(** [requests[i]] *)
Definition getReq (s : State) (i : Z) : Request :=
  default zeroRequest (requests s !! i).

(** [req.status = st] through the storage pointer [req = requests[i]] *)
Definition setStatus (i : Z) (st : Status) (s : State) : State :=
  let r := getReq s i in
  mkState (deployerOperator s) (nextRequestId s)
    (<[ i := mkRequest (id r) (buyerOperator r) (numUsers r) (durationMins r)
                       (orderDetails r) st (createdAt r) (amountPaid r) ]>
       (requests s))
    (balance s) (trace s).

Definition emit (e : Effect) (s : State) : State :=
  mkState (deployerOperator s) (nextRequestId s) (requests s) (balance s)
    (e :: trace s).

(** The value part of [to.call{value: v}('')]: ether leaves the contract. *)
Definition pay (to v : Z) (s : State) : State :=
  mkState (deployerOperator s) (nextRequestId s) (requests s) (balance s - v)
    (Transfer to v :: trace s).

(** [constructor(address _deployer)] *)
Definition constructor (_deployer : Z) : State :=
  mkState _deployer 0 ∅ 0 [].

(** *** State-changing functions

    [extcall to v s] stands for [to.call{value: v}('')] run in state [s]:
    [None] when the call returns [false], [Some s'] when it returns [true]
    leaving the ledger in [s']. *)

Section Functions.

Variable extcall : Z -> Z -> State -> option State.

(** [requiredPayment = durationMins * numUsers * 0.00012 ether] *)
Definition requiredPayment (durationMins numUsers : Z) : option Z :=
  match checked_mul durationMins numUsers with
  | None => None
  | Some dn => checked_mul dn RATE
  end.

Definition createRequest (now value : Z)
    (buyerOperator numUsers durationMins orderDetails : Z)
    (s : State) : Result (Z * State) :=
  if buyerOperator =? 0 then Revert InvalidBuyer else
  match requiredPayment durationMins numUsers with
  | None => Revert Panic
  | Some required =>
    if value <? required then Revert InsufficientAmount else
    match checked_add (nextRequestId s) 1 with
    | None => Revert Panic
    | Some next =>
      let id := nextRequestId s in
      Ok (id,
          emit (RequestCreated id buyerOperator numUsers durationMins
                  orderDetails value)
            (mkState (deployerOperator s) next
               (<[ id := mkRequest id buyerOperator numUsers durationMins
                           orderDetails Created now value ]> (requests s))
               (balance s + value) (trace s)))
    end
  end.

Definition confirmRequest (sender id : Z) (s : State) : Result State :=
  if negb (sender =? deployerOperator s) then Revert NotDeployer else
  let req := getReq s id in
  if negb (bool_decide (status req = Created)) then Revert NotCreated else
  match extcall (deployerOperator s) (amountPaid req) s with
  | None => Revert PaymentFailed
  | Some s1 => Ok (emit (RequestConfirmed id) (setStatus id Confirmed s1))
  end.

Definition cancelRequest (sender id : Z) (reason : string) (s : State)
    : Result State :=
  if negb (sender =? deployerOperator s) then Revert NotDeployer else
  let req := getReq s id in
  if negb (bool_decide (status req = Created)) then Revert NotCreated else
  let refunded :=
    if 0 <? amountPaid req
    then extcall (buyerOperator req) (amountPaid req) s
    else Some s in
  match refunded with
  | None => Revert RefundFailed
  | Some s1 =>
    Ok (emit (RequestCancelled id reason) (setStatus id Cancelled s1))
  end.

End Functions.

(** [createRequest] was accepted: it returned the next id. *)
Definition accepted (now value b n d o : Z) (s : State) : Prop :=
  exists s', createRequest now value b n d o s = Ok (nextRequestId s, s').

(** *** Calls and the recipient of a payment

    A call into the ledger names its sender, the function with its
    arguments (and [msg.value] for the payable [createRequest]), and how the
    recipient of the ether this call sends out behaves: it either makes the
    low-level call return [false] ([Reject]), or it runs, possibly calling
    back into the ledger (any of the calls in [reentrant], each with its own
    sender), and returns [true].  A recipient that is an externally owned
    account is [Accept CNil]. *)

Inductive Op :=
| CreateRequest (value buyerOperator numUsers durationMins orderDetails : Z)
| ConfirmRequest (id : Z)
| CancelRequest (id : Z) (reason : string).

Inductive Call :=
| mkCall (sender : Z) (op : Op) (recipient : Reaction)
with Reaction :=
| Reject
| Accept (reentrant : Calls)
with Calls :=
| CNil
| CCons (c : Call) (cs : Calls).

Scheme Call_mind := Induction for Call Sort Prop
  with Reaction_mind := Induction for Reaction Sort Prop
  with Calls_mind := Induction for Calls Sort Prop.
Combined Scheme Call_mutind from Call_mind, Reaction_mind, Calls_mind.

(** A reverted call leaves no trace at all. *)
Definition commit (s : State) (r : Result State) : State :=
  match r with
  | Ok s' => s'
  | Revert _ => s
  end.

Definition dropId (r : Result (Z * State)) : Result State :=
  match r with
  | Ok (_, s') => Ok s'
  | Revert e => Revert e
  end.

Fixpoint exec (now : Z) (c : Call) (s : State) {struct c} : Result State :=
  match c with
  | mkCall sender op recipient =>
    match op with
    | CreateRequest value b n d o => dropId (createRequest now value b n d o s)
    | ConfirmRequest i =>
        confirmRequest (fun to v st => send now to v recipient st) sender i s
    | CancelRequest i reason =>
        cancelRequest (fun to v st => send now to v recipient st)
          sender i reason s
    end
  end
with send (now to v : Z) (r : Reaction) (s : State) {struct r}
    : option State :=
  match r with
  | Reject => None
  | Accept cs =>
      if balance s <? v then None else Some (runAll now cs (pay to v s))
  end
with runAll (now : Z) (cs : Calls) (s : State) {struct cs} : State :=
  match cs with
  | CNil => s
  | CCons c cs' => runAll now cs' (commit s (exec now c s))
  end.

(** One transaction, as seen from the outside. *)
Definition step (now : Z) (c : Call) (s : State) : State :=
  commit s (exec now c s).

Inductive reachable : State -> Prop :=
| reach_deploy d : reachable (constructor d)
| reach_step s now c : reachable s -> reachable (step now c s).

(** The ether the ledger has sent out, oldest first: (recipient, amount). *)
Definition paidOut (s : State) : list (Z * Z) :=
  reverse (omap (fun e => match e with
                          | Transfer to v => Some (to, v)
                          | _ => None
                          end) (trace s)).

(** *** Status queries

    The three view functions are the same two loops with a different status:
    count the matches, allocate [new Request[](count)], then copy the matches
    in scan order.  A write past the end of a memory array is a panic. *)

Definition hasStatus (st : Status) (s : State) (i : Z) : bool :=
  bool_decide (status (getReq s i) = st).

Definition countLoop (st : Status) (s : State) : Z :=
  foldl (fun count i => if hasStatus st s i then count + 1 else count)
    0 (seqZ 0 (nextRequestId s)).

Definition copyBody (st : Status) (s : State)
    (acc : option (list Request * Z)) (i : Z) : option (list Request * Z) :=
  match acc with
  | None => None
  | Some (arr, index) =>
    if hasStatus st s i then
      if index <? Z.of_nat (length arr)
      then Some (<[ Z.to_nat index := getReq s i ]> arr, index + 1)
      else None
    else Some (arr, index)
  end.

Definition copyLoop (st : Status) (s : State) (arr : list Request)
    : option (list Request * Z) :=
  foldl (copyBody st s) (Some (arr, 0)) (seqZ 0 (nextRequestId s)).

Definition listByStatus (st : Status) (sender : Z) (s : State)
    : Result (list Request) :=
  if negb (sender =? deployerOperator s) then Revert NotDeployer else
  let count := countLoop st s in
  let arr := replicate (Z.to_nat count) zeroRequest in
  match copyLoop st s arr with
  | None => Revert Panic
  | Some (arr', _) => Ok arr'
  end.

Definition getPendingRequests := listByStatus Created.
Definition getConfirmedRequests := listByStatus Confirmed.
Definition getCancelledRequests := listByStatus Cancelled.

(** The ids below [nextRequestId] whose request has the given status, in
    ascending order. *)
Definition idsWith (st : Status) (s : State) : list Z :=
  filter (fun i => status (getReq s i) = st) (seqZ 0 (nextRequestId s)).

(** *** Invariants

    Finalised requests are frozen.

    [frozen s s']: the owner is the same, the id counter has not gone back,
    and every created request that was Confirmed or Cancelled in [s] is the
    same record in [s']. *)

Definition frozen (s s' : State) : Prop :=
  deployerOperator s' = deployerOperator s /\
  nextRequestId s <= nextRequestId s' /\
  forall i, i < nextRequestId s -> status (getReq s i) <> Created ->
            getReq s' i = getReq s i.

(** Created requests carry their own id.
    [ids_ok s]: below the counter every slot was written by [createRequest],
    so the record stored at [i] has [id = i]. *)

Definition ids_ok (s : State) : Prop :=
  0 <= nextRequestId s /\
  forall i, 0 <= i < nextRequestId s -> id (getReq s i) = i.

End contract1.

(** ** The admin panel server

    [fetchWithRetry] and the confirm / cancel handlers.  The world the
    server runs in is passed explicitly: the chain (the ledger above), the
    middleware's request store, the console, the timer, and the network,
    which answers the k-th HTTP request of the run with [net k]. *)

Module admin_server.

Inductive Outcome :=
| NetworkError (msg : string)     (* fetch rejects *)
| Response (status : Z).          (* fetch resolves with this HTTP status *)

(** [response.ok] *)
Definition ok (status : Z) : bool := (200 <=? status) && (status <=? 299).

(** [err] as caught by the handlers; [HttpError st] is
    [new Error(`HTTP ${st}`)]. *)
Inductive JsError :=
| HttpError (status : Z)
| FetchError (msg : string).

Inductive LogLine :=
| LogRetry (k retries delay : Z)          (* console.log(`Retry k/retries after delay ms...`) *)
| LogUpdateFailed (err : JsError).        (* console.error('Failed to update middleware state after 3 retries:', err.message) *)

(** [e.message] of the error the contract library throws when a call or a
    transaction reverts: a text of the library's own making that wraps the
    revert reason.  Only the reason is kept here. *)
Inductive ErrorMessage :=
| Reverted (reason : contract1.Error).

Inductive HttpReply :=
| Json200 (success : bool) (txHash message : string)
| Json500 (error : ErrorMessage).

(** What [await fetchWithRetry(..)] completes with. *)
Inductive Completion :=
| Returned (status : option Z)    (* the response, or undefined *)
| Thrown (err : JsError).

Section Server.

(** The request store lives in the middleware service, whose code is not
    part of the panel: its handling of a PATCH that it answers with a
    success status is a parameter, [deliver url store]. *)
Variable Store : Type.
Variable deliver : string -> Store -> Store.
Variable net : nat -> Outcome.

Record World := mkWorld {
  chain : contract1.State;
  store : Store;
  console : list LogLine;     (* newest first *)
  sleeps : list Z;            (* setTimeout delays in ms, oldest first *)
  fetches : nat               (* HTTP requests made so far *)
}.

Definition log (l : LogLine) (w : World) : World :=
  mkWorld (chain w) (store w) (l :: console w) (sleeps w) (fetches w).

Definition sleep (ms : Z) (w : World) : World :=
  mkWorld (chain w) (store w) (console w) (sleeps w ++ [ms]) (fetches w).

(** [await fetch(url, {method: 'PATCH'})] *)
Definition fetch (url : string) (w : World) : Outcome * World :=
  let o := net (fetches w) in
  let st' := match o with
             | Response st => if ok st then deliver url (store w) else store w
             | NetworkError _ => store w
             end in
  (o, mkWorld (chain w) st' (console w) (sleeps w) (S (fetches w))).

(** The [for (let i = 0; i < retries; i++)] loop, entered at [i] with
    [todo] iterations left. *)
Fixpoint retryLoop (url : string) (retries : Z) (todo : nat) (i : Z)
    (w : World) : Completion * World :=
  match todo with
  | O => (Returned None, w)
  | S todo' =>
    let '(o, w1) := fetch url w in
    let caught (err : JsError) :=
      if i =? retries - 1 then (Thrown err, w1)
      else
        let delay := 2 ^ i * 1000 in
        let w2 := log (LogRetry (i + 1) retries delay) w1 in
        let w3 := sleep delay w2 in
        retryLoop url retries todo' (i + 1) w3 in
    match o with
    | Response st =>
        if ok st then (Returned (Some st), w1) else caught (HttpError st)
    | NetworkError msg => caught (FetchError msg)
    end
  end.

Definition fetchWithRetry (url : string) (retries : Z) (w : World)
    : Completion * World :=
  retryLoop url retries (Z.to_nat retries) 0 w.

Definition stateUrl (txHash state : string) : string :=
  "http://localhost:5000/api/request/" +:+ txHash +:+ "/" +:+ state.

(** [await contract.f(..); await tx.wait()]: the transaction either is
    mined, or the call throws with the revert reason. *)
Definition sendTx (now : Z) (c : contract1.Call) (w : World)
    : contract1.Result World :=
  match contract1.exec now c (chain w) with
  | contract1.Ok s' =>
      contract1.Ok (mkWorld s' (store w) (console w) (sleeps w) (fetches w))
  | contract1.Revert e => contract1.Revert e
  end.

(** The part both handlers share after the transaction is mined. *)
Definition notify (txHash state message : string) (w : World)
    : HttpReply * World :=
  let '(done, w1) := fetchWithRetry (stateUrl txHash state) 3 w in
  let w2 := match done with
            | Returned _ => w1
            | Thrown err => log (LogUpdateFailed err) w1
            end in
  (Json200 true txHash message, w2).

(** [app.post('/api/confirm', ..)]; [sender] is the wallet of the posted
    private key, [txHash] the hash the node assigns, [recipient] the
    behaviour of the account the ledger pays.  [requestId] is
    [BigInt(requestId)], which the contract library encodes as a uint256:
    the handler is read for ids in that range. *)
Definition confirmHandler (now sender requestId : Z) (txHash : string)
    (recipient : contract1.Reaction) (w : World) : HttpReply * World :=
  match sendTx now
          (contract1.mkCall sender (contract1.ConfirmRequest requestId)
             recipient) w with
  | contract1.Revert e => (Json500 (Reverted e), w)
  | contract1.Ok w1 => notify txHash "accepted" "Request confirmed" w1
  end.

(** [app.post('/api/cancel', ..)] *)
Definition cancelHandler (now sender requestId : Z) (reason txHash : string)
    (recipient : contract1.Reaction) (w : World) : HttpReply * World :=
  match sendTx now
          (contract1.mkCall sender (contract1.CancelRequest requestId reason)
             recipient) w with
  | contract1.Revert e => (Json500 (Reverted e), w)
  | contract1.Ok w1 => notify txHash "rejected" "Request cancelled" w1
  end.

End Server.

Arguments mkWorld {Store} chain store console sleeps fetches.
Arguments chain {Store} w.
Arguments store {Store} w.
Arguments console {Store} w.
Arguments sleeps {Store} w.
Arguments fetches {Store} w.
Arguments log {Store} l w.
Arguments sleep {Store} ms w.
Arguments fetch {Store} deliver net url w.
Arguments retryLoop {Store} deliver net url retries todo i w.
Arguments fetchWithRetry {Store} deliver net url retries w.
Arguments sendTx {Store} now c w.
Arguments notify {Store} deliver net txHash state message w.
Arguments confirmHandler {Store} deliver net now sender requestId txHash
  recipient w.
Arguments cancelHandler {Store} deliver net now sender requestId reason txHash
  recipient w.

(** Did the attempt reach the store, and if not, what [catch] sees. *)
Definition delivered (o : Outcome) : bool :=
  match o with
  | Response st => ok st
  | NetworkError _ => false
  end.

Definition errorOf (o : Outcome) : JsError :=
  match o with
  | Response st => HttpError st
  | NetworkError msg => FetchError msg
  end.

(** What one more HTTP request does to the world when it is not
    delivered. *)
Definition missed {Store : Type} (w : World Store) : World Store :=
  mkWorld (chain w) (store w) (console w) (sleeps w) (S (fetches w)).

(** What a run of the loop that makes [k] requests leaves behind, entered
    at index [i] with [todo] iterations left. *)
Definition ran {Store : Type} (deliver : string -> Store -> Store)
    (net : nat -> Outcome) (url : string) (todo : nat) (i : Z)
    (w : World Store) (k : nat) (c : Completion) (w' : World Store) : Prop :=
  fetches w' = (fetches w + k)%nat /\
  sleeps w'
  = sleeps w ++ ((fun j => 2 ^ j * 1000) <$> seqZ i (Z.of_nat k - 1)) /\
  chain w' = chain w /\
  (forall j, (j < k - 1)%nat -> delivered (net (fetches w + j)%nat) = false) /\
  match c with
  | Returned (Some st) =>
      net (fetches w + (k - 1))%nat = Response st /\ ok st = true /\
      store w' = deliver url (store w)
  | Returned None => False
  | Thrown e =>
      k = todo /\ e = errorOf (net (fetches w + (k - 1))%nat) /\
      delivered (net (fetches w + (k - 1))%nat) = false /\
      store w' = store w
  end.

End admin_server.


(** ** The user panel server

    [app.post('/api/create', ..)] of the user panel.  The wallet address and
    the hash of the off-chain data come from the key and the hashing
    library; they are inputs here, as are the ether the wallet holds and the
    fee of the transaction.  [numUsers] and [durationMins] reach the
    contract library as JavaScript numbers, which it refuses to encode
    unless they are safe integers; the node refuses a transaction whose
    sender cannot pay its value and fee.  The id in the answer is read by a
    second call, [nextRequestId()], after the transaction is mined:
    [between] are the transactions mined in the meantime. *)

Module user_server.

Inductive Failure :=
| OutOfRange                                   (* an argument cannot be encoded *)
| Unaffordable                                 (* the wallet cannot pay value and fee *)
| CallFailed (m : admin_server.ErrorMessage).  (* the transaction reverts *)

Inductive CreateReply :=
| Created200 (requestId : Z) (txHash message : string)
| Create500 (error : Failure).

Definition MAX_SAFE_INTEGER : Z := 2 ^ 53 - 1.

Definition safeInteger (x : Z) : bool :=
  (0 <=? x) && (x <=? MAX_SAFE_INTEGER).

Definition mine (s : contract1.State) (txs : list (Z * contract1.Call))
    : contract1.State :=
  foldl (fun st tx => contract1.step tx.1 tx.2 st) s txs.

Definition createHandler
    (now wallet funds fee numUsers durationMins requestHash : Z)
    (txHash : string) (between : list (Z * contract1.Call))
    (s : contract1.State) : CreateReply * contract1.State :=
  let ratePerMinuteWei := RATE in
  let requiredPayment := ratePerMinuteWei * durationMins * numUsers in
  if negb (safeInteger numUsers && safeInteger durationMins)
  then (Create500 OutOfRange, s)
  else if funds <? requiredPayment + fee
  then (Create500 Unaffordable, s)
  else
    match contract1.exec now
            (contract1.mkCall wallet
               (contract1.CreateRequest requiredPayment wallet numUsers
                  durationMins requestHash) contract1.Reject) s with
    | contract1.Revert e =>
        (Create500 (CallFailed (admin_server.Reverted e)), s)
    | contract1.Ok s' =>
        let later := mine s' between in
        let requestId := contract1.nextRequestId later - 1 in
        (Created200 requestId txHash "Request created", later)
    end.

End user_server.

(** ** The list endpoints and [formatRequests]

    What the contract library hands over for each field, and how numbers,
    addresses, ether amounts and dates are printed, is the library's and the
    runtime's business: these are parameters.  The status label is the
    code's own: two strict comparisons with the numbers 0 and 1. *)

Module listing.

Inductive JsValue :=
| JsNumber (n : Z)
| JsBigInt (n : Z).

(** [a === b] on numbers and bigints: values of different types are never
    strictly equal. *)
Definition strictEquals (a b : JsValue) : bool :=
  match a, b with
  | JsNumber x, JsNumber y => x =? y
  | JsBigInt x, JsBigInt y => x =? y
  | _, _ => false
  end.

Definition statusLabel (status : JsValue) : string :=
  if strictEquals status (JsNumber 0) then "Created"
  else if strictEquals status (JsNumber 1) then "Confirmed"
  else "Cancelled".

Record Row := mkRow {
  row_id : string;
  row_buyer : string;
  row_numUsers : string;
  row_durationMins : string;
  row_amount : string;
  row_status : string;
  row_createdAt : string
}.

Inductive ListReply :=
| Rows (rows : list Row)
| List500 (error : admin_server.ErrorMessage).

Section Formatting.

Variable toString : Z -> string.            (* BigInt.prototype.toString *)
Variable showAddress : Z -> string.         (* the address as the library returns it *)
Variable formatEther : Z -> string.         (* ethers.formatEther *)
Variable toLocaleString : Z -> string.      (* new Date(ms).toLocaleString() *)
Variable decodeStatus : contract1.Status -> JsValue.

Definition formatRequest (r : contract1.Request) : Row :=
  mkRow (toString (contract1.id r))
        (showAddress (contract1.buyerOperator r))
        (toString (contract1.numUsers r))
        (toString (contract1.durationMins r))
        (formatEther (contract1.amountPaid r))
        (statusLabel (decodeStatus (contract1.status r)))
        (toLocaleString (contract1.createdAt r * 1000)).

Definition formatRequests (requests : list contract1.Request) : list Row :=
  map formatRequest requests.

Definition listHandler
    (query : Z -> contract1.State
             -> contract1.Result (list contract1.Request))
    (sender : Z) (s : contract1.State) : ListReply :=
  match query sender s with
  | contract1.Ok requests => Rows (formatRequests requests)
  | contract1.Revert e => List500 (admin_server.Reverted e)
  end.

(** [/api/pending], [/api/completed], [/api/cancelled] *)
Definition pendingHandler := listHandler contract1.getPendingRequests.
Definition completedHandler := listHandler contract1.getConfirmedRequests.
Definition cancelledHandler := listHandler contract1.getCancelledRequests.

End Formatting.

(** The enum handed over as a number, and as a bigint. *)
Definition asNumber (st : contract1.Status) : JsValue :=
  match st with
  | contract1.Created => JsNumber 0
  | contract1.Confirmed => JsNumber 1
  | contract1.Cancelled => JsNumber 2
  end.

Definition asBigInt (st : contract1.Status) : JsValue :=
  match st with
  | contract1.Created => JsBigInt 0
  | contract1.Confirmed => JsBigInt 1
  | contract1.Cancelled => JsBigInt 2
  end.

End listing.

(** ** The single-server variant

    Its confirm and cancel handlers first list the pending requests and
    refuse an id that is not among them.  [trim] and [BigInt] are the
    runtime's; [BigInt] gives [None] where it throws. *)

Module single_server.

(** What the [catch] of a handler answers with: the message of a revert, or
    of [BigInt] refusing its argument. *)
Inductive Caught :=
| CallFailed (m : admin_server.ErrorMessage)
| NotANumber.

Inductive Reply :=
| R200 (txHash : string)
| R400 (error : string)
| R500 (error : Caught).

Section Handlers.

Variable toString : Z -> string.
Variable trim : string -> string.
Variable BigInt : string -> option Z.

(** [pendingRequests.some(r => r.id.toString() === requestId.trim())] *)
Definition isPending (pendingRequests : list contract1.Request)
    (requestId : string) : bool :=
  existsb (fun r => String.eqb (toString (contract1.id r)) (trim requestId))
    pendingRequests.

Definition guarded (op : Z -> contract1.Op)
    (now sender : Z) (contractAddress requestId txHash : string)
    (recipient : contract1.Reaction) (s : contract1.State)
    : Reply * contract1.State :=
  if String.eqb contractAddress ""
  then (R400 "Contract address required", s)
  else
    match contract1.getPendingRequests sender s with
    | contract1.Revert e =>
        (R500 (CallFailed (admin_server.Reverted e)), s)
    | contract1.Ok pendingRequests =>
      if negb (isPending pendingRequests requestId)
      then (R400 "Request not found", s)
      else
        match BigInt requestId with
        | None => (R500 NotANumber, s)
        | Some i =>
          match contract1.exec now (contract1.mkCall sender (op i) recipient)
                  s with
          | contract1.Revert e =>
              (R500 (CallFailed (admin_server.Reverted e)), s)
          | contract1.Ok s' => (R200 txHash, s')
          end
        end
    end.

Definition confirmHandler := guarded contract1.ConfirmRequest.

Definition cancelHandler (reason : string) :=
  guarded (fun i => contract1.CancelRequest i reason).

End Handlers.

(** Canonical decimal numerals, for trying the handlers out. *)
Definition decimal (z : Z) : string :=
  DecimalString.NilZero.string_of_int (Z.to_int z).

Definition parseDecimal (str : string) : option Z :=
  option_map Z.of_int (DecimalString.NilZero.int_of_string str).

End single_server.

(** ** Sample runs *)

Module scenario.
Import contract1.

Definition owner : Z := 1.
Definition alice : Z := 10.
Definition bob : Z := 11.
Definition mallory : Z := 7.

(** 0.0144 ether and 0.01 ether, in wei. *)
Definition price_2x60 : Z := 144 * 10 ^ 14.
Definition short_2x60 : Z := 10 ^ 16.

(** Alice, then Bob, each request 2 users for 60 minutes and pay the price. *)
Definition two_created : State :=
  step 20 (mkCall bob (CreateRequest price_2x60 bob 2 60 5) Reject)
    (step 10 (mkCall alice (CreateRequest price_2x60 alice 2 60 5) Reject)
       (constructor owner)).

(** The owner, an externally owned account, confirms Alice's request. *)
Definition one_confirmed : State :=
  step 30 (mkCall owner (ConfirmRequest 0) (Accept CNil)) two_created.

(** ... and then cancels Bob's. *)
Definition all_final : State :=
  step 40 (mkCall owner (CancelRequest 1 "no capacity") (Accept CNil))
    one_confirmed.

(** An owner that is a contract: on receiving the payment for request 0 it
    calls [confirmRequest(0)] once more before returning. *)
Definition greedy_confirm : Call :=
  mkCall owner (ConfirmRequest 0)
    (Accept (CCons (mkCall owner (ConfirmRequest 0) (Accept CNil)) CNil)).

(** The same owner, calling [cancelRequest(0, ..)] from inside the payment
    of [confirmRequest(0)] instead. *)
Definition confirm_with_cancel_inside : Call :=
  mkCall owner (ConfirmRequest 0)
    (Accept (CCons (mkCall owner (CancelRequest 0 "inside") (Accept CNil))
               CNil)).

(** A store that records, per URL, that the PATCH was applied; a network
    that drops the first two requests; and one that answers 503 forever. *)
Definition patched (url : string) (st : gmap string string)
    : gmap string string :=
  <[ url := "applied" ]> st.

Definition flaky (k : nat) : admin_server.Outcome :=
  match k with
  | O | S O => admin_server.NetworkError "ECONNREFUSED"
  | _ => admin_server.Response 200
  end.

Definition down (k : nat) : admin_server.Outcome :=
  admin_server.Response 503.

Definition world0 : admin_server.World (gmap string string) :=
  admin_server.mkWorld two_created ∅ [] [] 0.

End scenario.

(** ** More vocabulary for the ledger *)

Module ledger_terms.
Import contract1.

(** The ids announced by [RequestCreated] events, oldest first. *)
Definition createdIds (s : State) : list Z :=
  reverse (omap (fun e => match e with
                          | RequestCreated rid _ _ _ _ _ => Some rid
                          | _ => None
                          end) (trace s)).

(** Two records that differ at most in [status]. *)
Definition sameButStatus (r r' : Request) : Prop :=
  id r' = id r /\ buyerOperator r' = buyerOperator r /\
  numUsers r' = numUsers r /\ durationMins r' = durationMins r /\
  orderDetails r' = orderDetails r /\ createdAt r' = createdAt r /\
  amountPaid r' = amountPaid r.

(** None of the calls a recipient makes while it is being paid is sent by
    [who]. *)
Fixpoint noneSentBy (who : Z) (cs : Calls) : Prop :=
  match cs with
  | CNil => True
  | CCons (mkCall sender _ _) cs' => sender <> who /\ noneSentBy who cs'
  end.

(** The ether owed to the requests that are still Created. *)
Definition owed (s : State) (i : Z) : Z :=
  if bool_decide (status (getReq s i) = Created)
  then amountPaid (getReq s i) else 0.

Definition sumOver (f : Z -> Z) (l : list Z) : Z :=
  foldr (fun i acc => f i + acc) 0 l.

Definition escrowed (s : State) : Z :=
  foldr (fun i acc => owed s i + acc) 0 (seqZ 0 (nextRequestId s)).

(** The books balance, amounts are amounts, and slots outside the range of
    created ids hold no escrow. *)
Definition sound (s : State) : Prop :=
  0 <= nextRequestId s /\
  balance s = escrowed s /\
  (forall i, 0 <= amountPaid (getReq s i)) /\
  (forall i, ~ 0 <= i < nextRequestId s -> amountPaid (getReq s i) = 0).

(** A call whose payment recipient does not call back, and whose
    [msg.value] is an amount of ether. *)
Definition plain (c : Call) : Prop :=
  match c with
  | mkCall _ op r =>
    (r = Reject \/ r = Accept CNil) /\
    match op with
    | CreateRequest value _ _ _ _ => 0 <= value
    | _ => True
    end
  end.

Inductive plainly_reachable : State -> Prop :=
| plain_deploy d : plainly_reachable (constructor d)
| plain_step s now c :
    plainly_reachable s -> plain c -> plainly_reachable (step now c s).

End ledger_terms.

(** ** Facts about the ledger *)

Module contract1_facts.
Import contract1.

Lemma getReq_setStatus_ne i j st s :
  i <> j -> getReq (setStatus i st s) j = getReq s j.
Proof.
  intros Hne. unfold getReq, setStatus; simpl.
  by rewrite lookup_insert_ne.
Qed.

Lemma status_setStatus i st s : status (getReq (setStatus i st s) i) = st.
Proof. unfold getReq, setStatus; simpl. by rewrite lookup_insert_eq. Qed.

Lemma id_setStatus i st s : id (getReq (setStatus i st s) i) = id (getReq s i).
Proof. unfold getReq at 1, setStatus; simpl. by rewrite lookup_insert_eq. Qed.

Lemma getReq_emit e s j : getReq (emit e s) j = getReq s j.
Proof. reflexivity. Qed.

Lemma getReq_pay to v s j : getReq (pay to v s) j = getReq s j.
Proof. reflexivity. Qed.

(** What [createRequest] does when it succeeds. *)
Lemma createRequest_Ok now value b n d o s rid s' :
  createRequest now value b n d o s = Ok (rid, s') ->
  rid = nextRequestId s /\
  nextRequestId s' = nextRequestId s + 1 /\
  deployerOperator s' = deployerOperator s /\
  balance s' = balance s + value /\
  getReq s' rid = mkRequest rid b n d o Created now value /\
  (forall j, j <> rid -> getReq s' j = getReq s j).
Proof.
  unfold createRequest.
  destruct (b =? 0); [discriminate|].
  destruct (requiredPayment d n) as [req|]; [|discriminate].
  destruct (value <? req); [discriminate|].
  unfold checked_add.
  destruct (nextRequestId s + 1 <=? MAX_UINT256); [|discriminate].
  intros [= <- <-]. simpl.
  repeat split; try reflexivity.
  - unfold getReq; simpl. by rewrite lookup_insert_eq.
  - intros j Hj. unfold getReq; simpl. by rewrite lookup_insert_ne.
Qed.

(** *** Finalised requests are frozen *)

Lemma frozen_refl s : frozen s s.
Proof. split; [done|]. split; [lia | done]. Qed.

Lemma frozen_trans s1 s2 s3 : frozen s1 s2 -> frozen s2 s3 -> frozen s1 s3.
Proof.
  intros (Hd1 & Hn1 & Hr1) (Hd2 & Hn2 & Hr2).
  split; [|split].
  - congruence.
  - lia.
  - intros i Hi Hst. rewrite <- (Hr1 i Hi Hst).
    apply Hr2; [lia|]. by rewrite (Hr1 i Hi Hst).
Qed.

Lemma frozen_pay to v s : frozen s (pay to v s).
Proof. split; [done|]. split; simpl; [lia | done]. Qed.

Lemma frozen_emit e s0 s : frozen s0 s -> frozen s0 (emit e s).
Proof. intros (Hd & Hn & Hr). split; [|split]; simpl; auto. Qed.

Lemma frozen_setStatus i st s0 s :
  status (getReq s0 i) = Created -> frozen s0 s -> frozen s0 (setStatus i st s).
Proof.
  intros Hc (Hd & Hn & Hr). split; [|split]; simpl; auto.
  intros j Hj Hst. rewrite getReq_setStatus_ne; [by apply Hr|].
  intros ->. by apply Hst.
Qed.

Lemma frozen_createRequest now value b n d o s rid s' :
  createRequest now value b n d o s = Ok (rid, s') -> frozen s s'.
Proof.
  intros H. apply createRequest_Ok in H as (-> & Hn & Hd & _ & _ & Hr).
  split; [done|]. split; [lia|].
  intros i Hi _. apply Hr. lia.
Qed.

Lemma frozen_confirmRequest ext sender i s s' :
  (forall to v s1, ext to v s = Some s1 -> frozen s s1) ->
  confirmRequest ext sender i s = Ok s' -> frozen s s'.
Proof.
  intros Hext. unfold confirmRequest.
  destruct (negb _); [discriminate|].
  case_bool_decide as Hst; simpl; [|discriminate].
  destruct (ext _ _ s) as [s1|] eqn:E; [|discriminate].
  intros [= <-]. apply frozen_emit, frozen_setStatus; eauto.
Qed.

Lemma frozen_cancelRequest ext sender i reason s s' :
  (forall to v s1, ext to v s = Some s1 -> frozen s s1) ->
  cancelRequest ext sender i reason s = Ok s' -> frozen s s'.
Proof.
  intros Hext. unfold cancelRequest.
  destruct (negb _); [discriminate|].
  case_bool_decide as Hst; simpl; [|discriminate].
  destruct (0 <? _).
  - destruct (ext _ _ s) as [s1|] eqn:E; [|discriminate].
    intros [= <-]. apply frozen_emit, frozen_setStatus; eauto.
  - intros [= <-]. apply frozen_emit, frozen_setStatus; auto using frozen_refl.
Qed.

Lemma frozen_exec_all :
  (forall c now s, frozen s (step now c s)) /\
  (forall r now to v s s1, send now to v r s = Some s1 -> frozen s s1) /\
  (forall cs now s, frozen s (runAll now cs s)).
Proof.
  apply Call_mutind.
  - intros sender op r IH now s. unfold step.
    destruct (exec now (mkCall sender op r) s) as [s'|e] eqn:E;
      simpl; [|apply frozen_refl].
    destruct op as [value b n d o | i | i reason]; simpl in E.
    + destruct (createRequest now value b n d o s) as [[rid s'']|] eqn:C;
        [|discriminate].
      injection E as <-. eapply frozen_createRequest; eauto.
    + eapply frozen_confirmRequest; [|exact E]. intros to v s1. apply IH.
    + eapply frozen_cancelRequest; [|exact E]. intros to v s1. apply IH.
  - intros; discriminate.
  - intros cs IH now to v s s1. simpl.
    destruct (balance s <? v); [discriminate|]. intros [= <-].
    eapply frozen_trans; [apply frozen_pay | apply IH].
  - intros now s. apply frozen_refl.
  - intros c IHc cs IHcs now s. simpl.
    eapply frozen_trans; [apply IHc | apply IHcs].
Qed.

Lemma frozen_step c now s : frozen s (step now c s).
Proof. apply frozen_exec_all. Qed.

(** *** Created requests carry their own id *)

Lemma ids_ok_setStatus i st s : ids_ok s -> ids_ok (setStatus i st s).
Proof.
  intros [Hn Hi]. split; [done|]. simpl. intros j Hj.
  destruct (decide (i = j)) as [->|Hne].
  - rewrite id_setStatus. by apply Hi.
  - rewrite getReq_setStatus_ne by done. by apply Hi.
Qed.

Lemma ids_ok_createRequest now value b n d o s rid s' :
  createRequest now value b n d o s = Ok (rid, s') -> ids_ok s -> ids_ok s'.
Proof.
  intros H [Hn Hi].
  apply createRequest_Ok in H as (-> & Hn' & _ & _ & Hnew & Hold).
  split; [lia|]. intros j Hj.
  destruct (decide (j = nextRequestId s)) as [->|Hne].
  - by rewrite Hnew.
  - rewrite Hold by done. apply Hi. lia.
Qed.

Lemma ids_ok_exec_all :
  (forall c now s, ids_ok s -> ids_ok (step now c s)) /\
  (forall r now to v s s1,
      send now to v r s = Some s1 -> ids_ok s -> ids_ok s1) /\
  (forall cs now s, ids_ok s -> ids_ok (runAll now cs s)).
Proof.
  apply Call_mutind.
  - intros sender op r IH now s Hs. unfold step.
    destruct (exec now (mkCall sender op r) s) as [s'|e] eqn:E; simpl; [|done].
    destruct op as [value b n d o | i | i reason]; simpl in E.
    + destruct (createRequest now value b n d o s) as [[rid s'']|] eqn:C;
        [|discriminate].
      injection E as <-. eapply ids_ok_createRequest; eauto.
    + unfold confirmRequest in E.
      destruct (negb (sender =? _)); [discriminate|].
      destruct (negb (bool_decide _)); [discriminate|].
      destruct (send now _ _ r s) as [s1|] eqn:S; [|discriminate].
      injection E as <-. apply (ids_ok_setStatus i Confirmed). eauto.
    + unfold cancelRequest in E.
      destruct (negb (sender =? _)); [discriminate|].
      destruct (negb (bool_decide _)); [discriminate|].
      destruct (0 <? _).
      * destruct (send now _ _ r s) as [s1|] eqn:S; [|discriminate].
        injection E as <-. apply (ids_ok_setStatus i Cancelled). eauto.
      * injection E as <-. by apply (ids_ok_setStatus i Cancelled).
  - intros; discriminate.
  - intros cs IH now to v s s1. simpl.
    destruct (balance s <? v); [discriminate|]. intros [= <-] Hs.
    apply IH. exact Hs.
  - intros now s Hs. exact Hs.
  - intros c IHc cs IHcs now s Hs. simpl. apply IHcs, IHc, Hs.
Qed.

Lemma reachable_ids_ok s : reachable s -> ids_ok s.
Proof.
  induction 1 as [d | s now c _ IH].
  - split; simpl; [lia|]. intros i Hi. lia.
  - by apply ids_ok_exec_all.
Qed.

(** *** The two loops of a status query compute the filtered scan *)

Lemma countLoop_spec st s (l : list Z) (c : Z) :
  foldl (fun count i => if hasStatus st s i then count + 1 else count) c l
  = c + Z.of_nat (length (filter (fun i => status (getReq s i) = st) l)).
Proof.
  revert c. induction l as [|i l IH]; intros c; simpl; [lia|].
  rewrite IH. unfold hasStatus. rewrite filter_cons.
  case_bool_decide; destruct (decide _); try done; simpl; lia.
Qed.

Lemma copyLoop_spec st s (l : list Z) (done rest : list Request) :
  length rest = length (filter (fun i => status (getReq s i) = st) l) ->
  foldl (copyBody st s) (Some (done ++ rest, Z.of_nat (length done))) l
  = Some (done ++ (getReq s <$> filter (fun i => status (getReq s i) = st) l),
          Z.of_nat (length done +
                    length (filter (fun i => status (getReq s i) = st) l))).
Proof.
  revert done rest. induction l as [|i l IH]; intros done rest Hlen.
  - simpl in *. destruct rest; [|discriminate].
    by rewrite Nat.add_0_r.
  - simpl. unfold hasStatus. rewrite filter_cons in *.
    case_bool_decide as Hst; destruct (decide _) as [Hd|Hd]; try done.
    + destruct rest as [|r0 rest]; [discriminate|]. simpl in Hlen.
      assert ((Z.of_nat (length done)
               <? Z.of_nat (length (done ++ r0 :: rest))) = true) as ->.
      { apply Z.ltb_lt. rewrite length_app. simpl. lia. }
      rewrite Nat2Z.id.
      replace (<[length done:=getReq s i]> (done ++ r0 :: rest))
        with ((done ++ [getReq s i]) ++ rest).
      2:{ rewrite insert_app_r_alt by lia. rewrite Nat.sub_diag. simpl.
          by rewrite <- app_assoc. }
      replace (Z.of_nat (length done) + 1)
        with (Z.of_nat (length (done ++ [getReq s i]))).
      2:{ rewrite length_app. simpl. lia. }
      rewrite IH by lia. rewrite length_app. simpl.
      rewrite <- app_assoc. simpl. do 2 f_equal. lia.
    + by apply IH.
Qed.

Lemma listByStatus_owner st s :
  listByStatus st (deployerOperator s) s = Ok (getReq s <$> idsWith st s).
Proof.
  unfold listByStatus. rewrite Z.eqb_refl. simpl.
  unfold countLoop, copyLoop. rewrite countLoop_spec.
  rewrite Z.add_0_l, Nat2Z.id.
  pose proof (copyLoop_spec st s (seqZ 0 (nextRequestId s)) []
                (replicate (length (idsWith st s)) zeroRequest)) as H.
  cbn [app length] in H. change (Z.of_nat 0) with 0 in H.
  unfold idsWith in *. rewrite H; [done|].
  by rewrite length_replicate.
Qed.

Lemma partition_by_status s (l : list Z) :
  filter (fun i => status (getReq s i) = Created) l
  ++ filter (fun i => status (getReq s i) = Confirmed) l
  ++ filter (fun i => status (getReq s i) = Cancelled) l ≡ₚ l.
Proof.
  induction l as [|i l IH]; [done|].
  rewrite !filter_cons.
  destruct (status (getReq s i)) eqn:E;
    repeat (destruct (decide _) as [?|?]; try done); simpl.
  - by rewrite IH.
  - rewrite <- Permutation_middle. by rewrite IH.
  - rewrite app_assoc. rewrite <- Permutation_middle.
    rewrite <- app_assoc. by rewrite IH.
Qed.

Lemma seqZ_sorted m n : StronglySorted Z.lt (seqZ m n).
Proof.
  destruct (decide (n <= 0)) as [Hn|Hn]; [rewrite seqZ_nil by done; constructor|].
  rewrite <- (Z2Nat.id n) by lia. generalize (Z.to_nat n) as k. clear.
  induction k as [|k IH]; [constructor|].
  rewrite seqZ_S. apply StronglySorted_app_2; [|exact IH|repeat constructor].
  intros x y Hx Hy. apply elem_of_seqZ in Hx.
  apply list_elem_of_singleton in Hy. lia.
Qed.

Lemma filter_sorted (P : Z -> Prop) `{!forall x, Decision (P x)} (l : list Z) :
  StronglySorted Z.lt l -> StronglySorted Z.lt (filter P l).
Proof.
  induction 1 as [|x l Hs IH Hall]; [constructor|].
  rewrite filter_cons. destruct (decide (P x)); [|done].
  constructor; [done|].
  apply Forall_forall. intros y Hy. apply list_elem_of_filter in Hy as [_ Hy].
  rewrite Forall_forall in Hall. by apply Hall.
Qed.

Lemma idsWith_sorted st s : StronglySorted Z.lt (idsWith st s).
Proof. apply filter_sorted, seqZ_sorted. Qed.

Lemma idsWith_elem st s i :
  i ∈ idsWith st s <-> status (getReq s i) = st /\ 0 <= i < nextRequestId s.
Proof. unfold idsWith. rewrite list_elem_of_filter, elem_of_seqZ. intuition lia. Qed.

Lemma ids_of_listed st s :
  ids_ok s -> id <$> (getReq s <$> idsWith st s) = idsWith st s.
Proof.
  intros [_ Hi].
  assert (Forall (fun i => id (getReq s i) = i) (idsWith st s)) as Hall.
  { apply Forall_forall. intros i Hin.
    apply idsWith_elem in Hin as [_ Hin]. by apply Hi. }
  induction Hall as [|i l Hhd _ IH]; [done|].
  rewrite !fmap_cons. by rewrite Hhd, IH.
Qed.

End contract1_facts.

(** ** The ledger's lifecycle *)

Module lifecycle.
Import contract1 contract1_facts.









(** Where a request does leave Cancelled.  [confirmRequest] writes
    [Confirmed] after the payment returns, without looking at the status
    again: when the owner, while being paid for request 0, cancels request
    0, the nested call leaves it Cancelled (and refunds the buyer), and the
    outer call then writes Confirmed over it.  The same late write is what
    pays the escrow twice. *)
Lemma cancelled_then_confirmed_in_one_call :
  let s := scenario.two_created in
  let paid := pay scenario.owner scenario.price_2x60 s in
  let inside :=
    step 30 (mkCall scenario.owner (CancelRequest 0 "inside") (Accept CNil))
      paid in
  status (getReq s 0) = Created /\
  status (getReq inside 0) = Cancelled /\
  exec 30 scenario.confirm_with_cancel_inside s
  = Ok (emit (RequestConfirmed 0) (setStatus 0 Confirmed inside)) /\
  status (getReq (step 30 scenario.confirm_with_cancel_inside s) 0)
  = Confirmed.
Proof. vm_compute. repeat split. Qed.

(** C10.  The three status queries revert with the not-the-deployer error
    for every sender other than [deployerOperator], whatever the state. *)
Theorem C10_status_queries_owner_only sender s :
  sender <> deployerOperator s ->
  getPendingRequests sender s = Revert NotDeployer /\
  getConfirmedRequests sender s = Revert NotDeployer /\
  getCancelledRequests sender s = Revert NotDeployer.
Proof.
  intros Hne.
  unfold getPendingRequests, getConfirmedRequests, getCancelledRequests,
    listByStatus.
  apply Z.eqb_neq in Hne. rewrite Hne. done.
Qed.

Lemma C10_status_queries_owner_only_witness :
  scenario.alice <> deployerOperator scenario.two_created /\
  getPendingRequests scenario.alice scenario.two_created
  = Revert NotDeployer.
Proof.
  assert (scenario.alice <> deployerOperator scenario.two_created) as Hne
    by (vm_compute; discriminate).
  split; [exact Hne|].
  exact (proj1 (C10_status_queries_owner_only _ _ Hne)).
Defined.

End lifecycle.

(** ** Pricing *)

Module pricing.
Import contract1 contract1_facts.

Lemma RATE_val : RATE = 120000000000000.
Proof. reflexivity. Qed.

(** The checked product is the exact product whenever that fits in 256
    bits, and a panic otherwise. *)
Lemma requiredPayment_exact d n :
  0 <= d -> 0 <= n ->
  requiredPayment d n
  = if d * n * RATE <=? MAX_UINT256 then Some (d * n * RATE) else None.
Proof.
  intros Hd Hn. unfold requiredPayment, checked_mul.
  pose proof RATE_val as HR.
  destruct (d * n <=? MAX_UINT256) eqn:E; [done|].
  apply Z.leb_gt in E.
  destruct (d * n * RATE <=? MAX_UINT256) eqn:E'; [|done].
  apply Z.leb_le in E'. nia.
Qed.

Lemma accepted_iff now value b n d o s :
  0 <= d -> 0 <= n -> value <= MAX_UINT256 ->
  b <> 0 -> nextRequestId s < MAX_UINT256 ->
  accepted now value b n d o s <-> d * n * RATE <= value.
Proof.
  intros Hd Hn Hv Hb Hnext. unfold accepted, createRequest.
  apply Z.eqb_neq in Hb. rewrite Hb.
  rewrite requiredPayment_exact by done.
  destruct (d * n * RATE <=? MAX_UINT256) eqn:E.
  - destruct (value <? d * n * RATE) eqn:E2.
    + apply Z.ltb_lt in E2. split; [intros [s' [=]] | lia].
    + apply Z.ltb_ge in E2. unfold checked_add.
      assert ((nextRequestId s + 1 <=? MAX_UINT256) = true) as ->
        by (apply Z.leb_le; lia).
      split; [done | eauto].
  - apply Z.leb_gt in E. split; [intros [s' [=]] | lia].
Qed.

Lemma rejected_below now value b n d o s :
  0 <= d -> 0 <= n -> value <= MAX_UINT256 ->
  value < d * n * RATE ->
  exists e, createRequest now value b n d o s = Revert e.
Proof.
  intros Hd Hn Hv Hlt. unfold createRequest.
  destruct (b =? 0); [eauto|].
  rewrite requiredPayment_exact by done.
  destruct (d * n * RATE <=? MAX_UINT256); [|eauto].
  assert ((value <? d * n * RATE) = true) as -> by (by apply Z.ltb_lt).
  eauto.
Qed.

(** C3, as amended.  For a non-zero [buyerOperator] and a product
    [durationMins * numUsers * 0.00012 ether] that fits in a uint256,
    [createRequest] reverts with the insufficient-amount error exactly when
    [msg.value] is below that product.  A zero [buyerOperator] is refused
    first, with the invalid-buyer error, whatever the payment; a product
    that does not fit reverts with the arithmetic panic.  For 2 users and 60
    minutes the price is 0.0144 ether: 0.01 ether is refused as
    insufficient, 0.0144 ether is accepted and the new request is
    Created. *)
Theorem C3_insufficient_payment now value b n d o s :
  is_uint256 n -> is_uint256 d ->
  (b = 0 -> createRequest now value b n d o s = Revert InvalidBuyer) /\
  (b <> 0 -> MAX_UINT256 < d * n * RATE ->
     createRequest now value b n d o s = Revert Panic) /\
  (b <> 0 -> d * n * RATE <= MAX_UINT256 ->
     (createRequest now value b n d o s = Revert InsufficientAmount
      <-> value < d * n * RATE)) /\
  requiredPayment 60 2 = Some scenario.price_2x60 /\
  scenario.price_2x60 * 10000 = 144 * ether /\
  scenario.short_2x60 * 100 = ether /\
  (b <> 0 ->
     createRequest now scenario.short_2x60 b 2 60 o s
     = Revert InsufficientAmount) /\
  (b <> 0 -> nextRequestId s < MAX_UINT256 ->
     exists s',
       createRequest now scenario.price_2x60 b 2 60 o s
       = Ok (nextRequestId s, s') /\
       status (getReq s' (nextRequestId s)) = Created).
Proof.
  intros [Hn _] [Hd _].
  split; [|split; [|split; [|split; [|split; [|split; [|split]]]]]].
  - intros ->. reflexivity.
  - intros Hb Hov. unfold createRequest.
    apply Z.eqb_neq in Hb. rewrite Hb.
    rewrite requiredPayment_exact by done.
    apply Z.leb_gt in Hov. by rewrite Hov.
  - intros Hb Hfit. unfold createRequest.
    apply Z.eqb_neq in Hb. rewrite Hb.
    rewrite requiredPayment_exact by done.
    apply Z.leb_le in Hfit. rewrite Hfit.
    destruct (value <? d * n * RATE) eqn:E.
    + apply Z.ltb_lt in E. done.
    + apply Z.ltb_ge in E. split; [|lia].
      destruct (checked_add _ _); discriminate.
  - reflexivity.
  - reflexivity.
  - reflexivity.
  - intros Hb. unfold createRequest.
    apply Z.eqb_neq in Hb. rewrite Hb. reflexivity.
  - intros Hb Hnext. unfold createRequest.
    apply Z.eqb_neq in Hb. rewrite Hb.
    change (requiredPayment 60 2) with (Some scenario.price_2x60).
    cbv beta iota. rewrite Z.ltb_irrefl. unfold checked_add.
    assert ((nextRequestId s + 1 <=? MAX_UINT256) = true) as ->
      by (apply Z.leb_le; lia).
    eexists. split; [reflexivity|].
    unfold getReq; simpl. by rewrite lookup_insert_eq.
Qed.

Lemma C3_insufficient_payment_witness :
  is_uint256 2 /\ is_uint256 60 /\
  createRequest 10 scenario.short_2x60 scenario.alice 2 60 5
    (constructor scenario.owner) = Revert InsufficientAmount.
Proof.
  assert (is_uint256 2) as H2 by (split; vm_compute; discriminate).
  assert (is_uint256 60) as H60 by (split; vm_compute; discriminate).
  split; [exact H2|]. split; [exact H60|].
  destruct (C3_insufficient_payment 10 scenario.short_2x60 scenario.alice
              2 60 5 (constructor scenario.owner) H2 H60)
    as (_ & _ & Hiff & _).
  assert (scenario.alice <> 0) as Hb by (vm_compute; discriminate).
  assert (60 * 2 * RATE <= MAX_UINT256) as Hfit by (vm_compute; discriminate).
  apply (proj2 (Hiff Hb Hfit)). vm_compute; reflexivity.
Defined.

(** C3 as stated fails in two ways.  With a zero [buyerOperator] a payment
    below the price is refused with the invalid-buyer error, not the
    insufficient-amount one; and when the product leaves the uint256 range
    (2^128 users for 2^128 minutes) a payment below the exact price is
    refused with the arithmetic panic. *)
Lemma C3_counterexample_other_errors :
  (scenario.short_2x60 < 60 * 2 * RATE /\
   createRequest 10 scenario.short_2x60 0 2 60 5 (constructor scenario.owner)
   = Revert InvalidBuyer) /\
  (is_uint256 (2 ^ 128) /\ ether < 2 ^ 128 * 2 ^ 128 * RATE /\
   createRequest 10 ether scenario.alice (2 ^ 128) (2 ^ 128) 5
     (constructor scenario.owner) = Revert Panic) /\
  Revert (A:=Z * State) InvalidBuyer <> Revert InsufficientAmount /\
  Revert (A:=Z * State) Panic <> Revert InsufficientAmount.
Proof.
  split; [|split; [|split]].
  - split; [vm_compute; reflexivity | reflexivity].
  - split; [split; vm_compute; discriminate|].
    split; [vm_compute; reflexivity | reflexivity].
  - discriminate.
  - discriminate.
Qed.

(** C5, as amended.  The price [createRequest] computes is the exact
    integer product [durationMins * numUsers * 0.00012 ether]; doubling
    either input doubles it whenever the doubled price still fits in a
    uint256 (where it does not, the computation panics and no payment is
    accepted, so the threshold of acceptance still doubles); every payment
    below the price is refused, and every payment at or above it is accepted
    when [buyerOperator] is non-zero. *)
Theorem C5_price_is_linear_threshold now value b n d o s :
  is_uint256 n -> is_uint256 d -> is_uint256 value ->
  b <> 0 -> nextRequestId s < MAX_UINT256 ->
  (forall r, requiredPayment d n = Some r -> r = d * n * RATE) /\
  (forall r, requiredPayment d n = Some r -> 2 * r <= MAX_UINT256 ->
     requiredPayment (2 * d) n = Some (2 * r) /\
     requiredPayment d (2 * n) = Some (2 * r)) /\
  (accepted now value b n (2 * d) o s <-> 2 * (d * n * RATE) <= value) /\
  (accepted now value b (2 * n) d o s <-> 2 * (d * n * RATE) <= value) /\
  (accepted now value b n d o s <-> d * n * RATE <= value) /\
  (value < d * n * RATE ->
     exists e, createRequest now value b n d o s = Revert e).
Proof.
  intros [Hn _] [Hd _] [_ Hv] Hb Hnext.
  assert (forall r, requiredPayment d n = Some r ->
                    r = d * n * RATE /\ r <= MAX_UINT256) as Hex.
  { intros r. rewrite requiredPayment_exact by done.
    destruct (d * n * RATE <=? MAX_UINT256) eqn:E; [|discriminate].
    apply Z.leb_le in E. intros [= <-]. done. }
  split; [|split; [|split; [|split; [|split]]]].
  - intros r Hr. by apply Hex.
  - intros r Hr H2. apply Hex in Hr as [-> _].
    rewrite !requiredPayment_exact by lia.
    replace (2 * d * n * RATE) with (2 * (d * n * RATE)) by lia.
    replace (d * (2 * n) * RATE) with (2 * (d * n * RATE)) by lia.
    apply Z.leb_le in H2. by rewrite H2.
  - rewrite accepted_iff by (done || lia). lia.
  - rewrite accepted_iff by (done || lia). lia.
  - by apply accepted_iff.
  - by apply rejected_below.
Qed.

Lemma C5_price_is_linear_threshold_witness :
  is_uint256 2 /\ is_uint256 60 /\ is_uint256 scenario.price_2x60 /\
  scenario.alice <> 0 /\
  nextRequestId (constructor scenario.owner) < MAX_UINT256 /\
  requiredPayment (2 * 60) 2 = Some (2 * scenario.price_2x60).
Proof.
  assert (is_uint256 2) as H2 by (split; vm_compute; discriminate).
  assert (is_uint256 60) as H60 by (split; vm_compute; discriminate).
  assert (is_uint256 scenario.price_2x60) as Hp
    by (split; vm_compute; discriminate).
  assert (scenario.alice <> 0) as Hb by (vm_compute; discriminate).
  assert (nextRequestId (constructor scenario.owner) < MAX_UINT256) as Hnx
    by (vm_compute; reflexivity).
  repeat (split; [assumption|]).
  destruct (C5_price_is_linear_threshold 10 scenario.price_2x60
              scenario.alice 2 60 5 (constructor scenario.owner)
              H2 H60 Hp Hb Hnx) as (_ & Hdouble & _).
  apply (Hdouble scenario.price_2x60); [reflexivity|].
  vm_compute; discriminate.
Defined.

(** C5 as stated fails on the doubling: for 1 user and 2^209 minutes the
    price is computed, but for twice as many minutes, still a uint256, the
    checked product overflows: no price comes out and [createRequest]
    panics. *)
Lemma C5_counterexample_doubling_overflows :
  is_uint256 (2 ^ 209) /\ is_uint256 (2 * 2 ^ 209) /\
  requiredPayment (2 ^ 209) 1 = Some (2 ^ 209 * RATE) /\
  requiredPayment (2 * 2 ^ 209) 1 = None /\
  requiredPayment (2 * 2 ^ 209) 1 <> Some (2 * (2 ^ 209 * RATE)) /\
  createRequest 10 MAX_UINT256 scenario.alice 1 (2 * 2 ^ 209) 5
    (constructor scenario.owner) = Revert Panic.
Proof.
  split; [split; vm_compute; discriminate|].
  split; [split; vm_compute; discriminate|].
  split; [vm_compute; reflexivity|].
  split; [vm_compute; reflexivity|].
  split; [vm_compute; discriminate|].
  vm_compute; reflexivity.
Qed.

End pricing.

(** ** Escrow, ids that were never created, and the status views *)

Module escrow.
Import contract1 contract1_facts.

(** Without re-entry the escrow moves once: a recipient that simply accepts
    gets exactly [amountPaid], and the request is finalised. *)
Lemma confirm_without_reentry now i s :
  status (getReq s i) = Created -> amountPaid (getReq s i) <= balance s ->
  exec now (mkCall (deployerOperator s) (ConfirmRequest i) (Accept CNil)) s
  = Ok (emit (RequestConfirmed i)
          (setStatus i Confirmed
             (pay (deployerOperator s) (amountPaid (getReq s i)) s))).
Proof.
  intros Hst Hbal. simpl. unfold confirmRequest.
  rewrite Z.eqb_refl. simpl. rewrite bool_decide_eq_true_2 by done. simpl.
  assert ((balance s <? amountPaid (getReq s i)) = false) as ->
    by (apply Z.ltb_ge; lia).
  reflexivity.
Qed.

Lemma cancel_without_reentry now i reason s :
  status (getReq s i) = Created ->
  0 < amountPaid (getReq s i) <= balance s ->
  exec now (mkCall (deployerOperator s) (CancelRequest i reason) (Accept CNil))
    s
  = Ok (emit (RequestCancelled i reason)
          (setStatus i Cancelled
             (pay (buyerOperator (getReq s i)) (amountPaid (getReq s i)) s))).
Proof.
  intros Hst [Hpos Hbal]. simpl. unfold cancelRequest.
  rewrite Z.eqb_refl. simpl. rewrite bool_decide_eq_true_2 by done. simpl.
  assert ((0 <? amountPaid (getReq s i)) = true) as ->
    by (by apply Z.ltb_lt).
  assert ((balance s <? amountPaid (getReq s i)) = false) as ->
    by (apply Z.ltb_ge; lia).
  reflexivity.
Qed.

(** A recipient that refuses the ether aborts the whole call. *)
Lemma rejected_transfer_aborts now i reason s :
  status (getReq s i) = Created ->
  exec now (mkCall (deployerOperator s) (ConfirmRequest i) Reject) s
  = Revert PaymentFailed /\
  (0 < amountPaid (getReq s i) ->
   exec now (mkCall (deployerOperator s) (CancelRequest i reason) Reject) s
   = Revert RefundFailed).
Proof.
  intros Hst. simpl. unfold confirmRequest, cancelRequest.
  rewrite Z.eqb_refl. simpl. rewrite bool_decide_eq_true_2 by done. simpl.
  split; [done|]. intros Hpos. apply Z.ltb_lt in Hpos. by rewrite Hpos.
Qed.

(** C2, where the code breaks it.  [confirmRequest] sends the ether before
    it writes [Confirmed]; an owner that is a contract and calls
    [confirmRequest(0)] again while being paid passes the status check a
    second time.  From the state with two Created requests of 0.0144 ether
    each, that single call pays the owner twice for request 0, empties the
    ledger, and leaves request 1 Created with an escrow that can no longer
    be refunded.  Calling [cancelRequest(0, ..)] from inside the payment
    instead pays both the buyer and the owner for request 0. *)
Theorem C2_reentrant_owner_is_paid_twice :
  let s := scenario.two_created in
  let s' := step 30 scenario.greedy_confirm s in
  let s'' := step 30 scenario.confirm_with_cancel_inside s in
  (status (getReq s 0) = Created /\
   amountPaid (getReq s 0) = scenario.price_2x60 /\
   balance s = 2 * scenario.price_2x60 /\ paidOut s = []) /\
  (exec 30 scenario.greedy_confirm s = Ok s' /\
   paidOut s' = [(scenario.owner, scenario.price_2x60);
                 (scenario.owner, scenario.price_2x60)] /\
   balance s' = 0 /\
   status (getReq s' 0) = Confirmed /\
   status (getReq s' 1) = Created /\
   amountPaid (getReq s' 1) = scenario.price_2x60 /\
   exec 40 (mkCall scenario.owner (CancelRequest 1 "refund") (Accept CNil)) s'
   = Revert RefundFailed) /\
  (exec 30 scenario.confirm_with_cancel_inside s = Ok s'' /\
   paidOut s'' = [(scenario.owner, scenario.price_2x60);
                  (scenario.alice, scenario.price_2x60)] /\
   status (getReq s'' 0) = Confirmed).
Proof. vm_compute. repeat split. Qed.

(** C8, as amended.  An id at or above the counter whose slot still holds
    the default record reads as Created; called by the owner,
    [confirmRequest] on it succeeds when the owner accepts the payment of
    0 wei (and fails with the payment error when the owner refuses it), and
    marks the slot Confirmed; [cancelRequest] on it succeeds without any
    transfer and marks it Cancelled. *)
Theorem C8_never_created_id_is_finalised now s i reason cs :
  nextRequestId s <= i -> getReq s i = zeroRequest -> 0 <= balance s ->
  status (getReq s i) = Created /\
  (exists s',
     exec now (mkCall (deployerOperator s) (ConfirmRequest i) (Accept cs)) s
     = Ok s' /\ status (getReq s' i) = Confirmed) /\
  exec now (mkCall (deployerOperator s) (ConfirmRequest i) (Accept CNil)) s
  = Ok (emit (RequestConfirmed i)
          (setStatus i Confirmed (pay (deployerOperator s) 0 s))) /\
  exec now (mkCall (deployerOperator s) (ConfirmRequest i) Reject) s
  = Revert PaymentFailed /\
  (forall r,
     exec now (mkCall (deployerOperator s) (CancelRequest i reason) r) s
     = Ok (emit (RequestCancelled i reason) (setStatus i Cancelled s))).
Proof.
  intros _ Hzero Hbal.
  assert (status (getReq s i) = Created) as Hst by (by rewrite Hzero).
  assert (amountPaid (getReq s i) = 0) as Hamt by (by rewrite Hzero).
  split; [exact Hst|]. split; [|split; [|split]].
  - simpl. unfold confirmRequest.
    rewrite Z.eqb_refl. simpl. rewrite bool_decide_eq_true_2 by done. simpl.
    rewrite Hamt.
    assert ((balance s <? 0) = false) as -> by (apply Z.ltb_ge; lia).
    eexists. split; [reflexivity|].
    by rewrite getReq_emit, status_setStatus.
  - rewrite confirm_without_reentry by (done || lia). by rewrite Hamt.
  - exact (proj1 (rejected_transfer_aborts now i reason s Hst)).
  - intros r. simpl. unfold cancelRequest.
    rewrite Z.eqb_refl. simpl. rewrite bool_decide_eq_true_2 by done. simpl.
    by rewrite Hamt.
Qed.

Lemma C8_never_created_id_is_finalised_witness :
  nextRequestId (constructor scenario.owner) <= 5 /\
  getReq (constructor scenario.owner) 5 = zeroRequest /\
  0 <= balance (constructor scenario.owner) /\
  exec 10 (mkCall scenario.owner (CancelRequest 5 "none") Reject)
    (constructor scenario.owner)
  = Ok (emit (RequestCancelled 5 "none")
          (setStatus 5 Cancelled (constructor scenario.owner))).
Proof.
  assert (nextRequestId (constructor scenario.owner) <= 5) as H1
    by (vm_compute; discriminate).
  assert (getReq (constructor scenario.owner) 5 = zeroRequest) as H2
    by reflexivity.
  assert (0 <= balance (constructor scenario.owner)) as H3
    by (vm_compute; discriminate).
  repeat (split; [assumption|]).
  destruct (C8_never_created_id_is_finalised 10 (constructor scenario.owner)
              5 "none" CNil H1 H2 H3) as (_ & _ & _ & _ & Hx).
  exact (Hx Reject).
Defined.

(** C8 as stated fails: being at or above the counter is not enough.
    After the owner has confirmed id 0 on a freshly deployed ledger, id 0
    is still at the counter (no request was ever created), but its slot
    reads Confirmed, and both functions, called by the owner, fail with the
    not-in-Created-status error. *)
Lemma C8_counterexample_slot_already_finalised :
  let s1 := step 10 (mkCall scenario.owner (ConfirmRequest 0) (Accept CNil))
              (constructor scenario.owner) in
  reachable s1 /\
  nextRequestId s1 <= 0 /\
  status (getReq s1 0) = Confirmed /\
  exec 11 (mkCall (deployerOperator s1) (ConfirmRequest 0) (Accept CNil)) s1
  = Revert NotCreated /\
  exec 11 (mkCall (deployerOperator s1) (CancelRequest 0 "none") (Accept CNil))
    s1 = Revert NotCreated.
Proof.
  split; [apply reach_step, reach_deploy|].
  vm_compute. repeat split. discriminate.
Qed.

(** Once such a slot has been finalised it no longer holds the default
    record: a second call fails, and the slot is written afresh when the
    counter reaches it. *)
Lemma phantom_slot_is_reused :
  let s1 := step 10 (mkCall scenario.owner (ConfirmRequest 0) (Accept CNil))
              (constructor scenario.owner) in
  nextRequestId s1 = 0 /\ status (getReq s1 0) = Confirmed /\
  exec 11 (mkCall scenario.owner (ConfirmRequest 0) (Accept CNil)) s1
  = Revert NotCreated /\
  status (getReq
            (step 12 (mkCall scenario.alice
                        (CreateRequest 0 scenario.alice 0 0 5) Reject) s1) 0)
  = Created.
Proof. vm_compute. repeat split. Qed.

(** C9.  With [numUsers = 0] or [durationMins = 0] the price is 0, so
    [createRequest] with no payment and a non-zero buyer succeeds and stores
    a Created request with [amountPaid = 0]; as long as that record stands,
    [cancelRequest] by the owner finalises it with no transfer at all: no
    call is made to the buyer (whatever the buyer would answer), nothing is
    paid out and the balance is unchanged. *)
Theorem C9_zero_sized_request now b n d o s :
  b <> 0 -> n = 0 \/ d = 0 -> nextRequestId s < MAX_UINT256 ->
  requiredPayment d n = Some 0 /\
  exists s',
    createRequest now 0 b n d o s = Ok (nextRequestId s, s') /\
    getReq s' (nextRequestId s)
    = mkRequest (nextRequestId s) b n d o Created now 0 /\
    balance s' = balance s + 0 /\
    forall now' reason r s2,
      getReq s2 (nextRequestId s) = getReq s' (nextRequestId s) ->
      exists s3,
        exec now' (mkCall (deployerOperator s2)
                     (CancelRequest (nextRequestId s) reason) r) s2 = Ok s3 /\
        status (getReq s3 (nextRequestId s)) = Cancelled /\
        balance s3 = balance s2 /\
        paidOut s3 = paidOut s2 /\
        trace s3 = RequestCancelled (nextRequestId s) reason :: trace s2.
Proof.
  intros Hb Hzero Hnext.
  assert (requiredPayment d n = Some 0) as Hreq.
  { unfold requiredPayment, checked_mul.
    destruct Hzero as [-> | ->]; [rewrite Z.mul_0_r | rewrite Z.mul_0_l];
      reflexivity. }
  split; [exact Hreq|].
  unfold createRequest. apply Z.eqb_neq in Hb. rewrite Hb, Hreq.
  rewrite Z.ltb_irrefl. unfold checked_add.
  assert ((nextRequestId s + 1 <=? MAX_UINT256) = true) as ->
    by (apply Z.leb_le; lia).
  eexists. split; [reflexivity|].
  assert (forall m : gmap Z Request,
            default zeroRequest
              (<[nextRequestId s :=
                   mkRequest (nextRequestId s) b n d o Created now 0]> m
               !! nextRequestId s)
            = mkRequest (nextRequestId s) b n d o Created now 0) as Hlk.
  { intros m. by rewrite lookup_insert_eq. }
  split; [apply Hlk|]. split; [reflexivity|].
  intros now' reason r s2 Hsame.
  unfold getReq at 2 in Hsame. simpl in Hsame. rewrite Hlk in Hsame.
  simpl. unfold cancelRequest.
  rewrite Z.eqb_refl. simpl. rewrite Hsame. simpl.
  eexists. split; [reflexivity|].
  rewrite getReq_emit, status_setStatus. done.
Qed.

Lemma C9_zero_sized_request_witness :
  scenario.alice <> 0 /\ (0 = 0 \/ 60 = 0) /\
  nextRequestId (constructor scenario.owner) < MAX_UINT256 /\
  requiredPayment 60 0 = Some 0.
Proof.
  assert (scenario.alice <> 0) as Hb by (vm_compute; discriminate).
  assert (0 = 0 \/ 60 = 0) as Hz by (left; reflexivity).
  assert (nextRequestId (constructor scenario.owner) < MAX_UINT256) as Hnx
    by (vm_compute; reflexivity).
  repeat (split; [assumption|]).
  exact (proj1 (C9_zero_sized_request 10 scenario.alice 0 60 5
                  (constructor scenario.owner) Hb Hz Hnx)).
Defined.

End escrow.

(** ** The status views *)

Module views.
Import contract1 contract1_facts.

Lemma listed_records st s :
  Forall (fun r => status r = st /\ r = getReq s (id r))
    (getReq s <$> idsWith st s) <->
  Forall (fun i => status (getReq s i) = st /\
                   getReq s i = getReq s (id (getReq s i))) (idsWith st s).
Proof. by rewrite Forall_fmap. Qed.

Lemma listed_ok st s :
  ids_ok s ->
  Forall (fun r => status r = st /\ r = getReq s (id r))
    (getReq s <$> idsWith st s).
Proof.
  intros [_ Hid]. apply listed_records, Forall_forall. intros i Hin.
  apply idsWith_elem in Hin as [Hst Hrange].
  split; [exact Hst|]. by rewrite Hid.
Qed.

(** C4.  In every reachable state the owner's three queries succeed; each
    returned record is the stored request of its id and has the queried
    status; the ids of the three lists together are exactly the ids
    [0 .. nextRequestId - 1], each once; the three lengths add up to
    [nextRequestId]; and each list is in strictly ascending id order. *)
Theorem C4_status_views_partition s :
  reachable s ->
  exists pending confirmed cancelled : list Request,
    getPendingRequests (deployerOperator s) s = Ok pending /\
    getConfirmedRequests (deployerOperator s) s = Ok confirmed /\
    getCancelledRequests (deployerOperator s) s = Ok cancelled /\
    Forall (fun r => status r = Created /\ r = getReq s (id r)) pending /\
    Forall (fun r => status r = Confirmed /\ r = getReq s (id r)) confirmed /\
    Forall (fun r => status r = Cancelled /\ r = getReq s (id r)) cancelled /\
    (id <$> pending) ++ (id <$> confirmed) ++ (id <$> cancelled)
      ≡ₚ seqZ 0 (nextRequestId s) /\
    Z.of_nat (length pending + length confirmed + length cancelled)
      = nextRequestId s /\
    StronglySorted Z.lt (id <$> pending) /\
    StronglySorted Z.lt (id <$> confirmed) /\
    StronglySorted Z.lt (id <$> cancelled).
Proof.
  intros Hreach. pose proof (reachable_ids_ok s Hreach) as Hok.
  exists (getReq s <$> idsWith Created s),
         (getReq s <$> idsWith Confirmed s),
         (getReq s <$> idsWith Cancelled s).
  unfold getPendingRequests, getConfirmedRequests, getCancelledRequests.
  rewrite !listByStatus_owner, !ids_of_listed by done.
  pose proof (partition_by_status s (seqZ 0 (nextRequestId s))) as Hperm.
  fold (idsWith Created s) (idsWith Confirmed s) (idsWith Cancelled s)
    in Hperm.
  do 3 (split; [reflexivity|]).
  do 3 (split; [by apply listed_ok|]).
  split; [exact Hperm|].
  split; [|split; [|split]]; try apply idsWith_sorted.
  rewrite !length_fmap.
  apply Permutation_length in Hperm.
  rewrite !length_app, length_seqZ in Hperm.
  destruct Hok as [Hn _]. lia.
Qed.

Lemma C4_status_views_partition_witness :
  reachable scenario.all_final /\
  getPendingRequests scenario.owner scenario.all_final = Ok [] /\
  (id <$> [getReq scenario.all_final 0]) ++
  (id <$> [getReq scenario.all_final 1]) ≡ₚ seqZ 0 2.
Proof.
  assert (reachable scenario.all_final) as Hreach.
  { unfold scenario.all_final, scenario.one_confirmed, scenario.two_created.
    repeat apply reach_step. apply reach_deploy. }
  split; [exact Hreach|].
  destruct (C4_status_views_partition _ Hreach)
    as (p & c & x & Hp & Hc & Hx & _ & _ & _ & Hperm & _).
  vm_compute in Hp, Hc, Hx.
  injection Hp as <-. injection Hc as <-. injection Hx as <-.
  split; [reflexivity|]. exact Hperm.
Defined.

End views.

(** ** The sync bridge *)

Module bridge.
Import admin_server.

Section Facts.

Context {Store : Type}.
Variable deliver : string -> Store -> Store.
Variable net : nat -> Outcome.

Lemma attempt_fails url retries todo i (w : World Store) :
  delivered (net (fetches w)) = false ->
  retryLoop deliver net url retries (S todo) i w
  = if i =? retries - 1
    then (Thrown (errorOf (net (fetches w))), missed w)
    else retryLoop deliver net url retries todo (i + 1)
           (sleep (2 ^ i * 1000)
              (log (LogRetry (i + 1) retries (2 ^ i * 1000)) (missed w))).
Proof.
  intros Hd. simpl. unfold fetch, missed.
  destruct (net (fetches w)) as [msg|st]; simpl in *.
  - reflexivity.
  - rewrite Hd. reflexivity.
Qed.

Lemma attempt_succeeds url retries todo i (w : World Store) :
  delivered (net (fetches w)) = true ->
  exists st,
    net (fetches w) = Response st /\
    retryLoop deliver net url retries (S todo) i w
    = (Returned (Some st),
       mkWorld (chain w) (deliver url (store w)) (console w) (sleeps w)
         (S (fetches w))).
Proof.
  intros Hd. simpl. unfold fetch.
  destruct (net (fetches w)) as [msg|st]; simpl in *; [discriminate|].
  exists st. rewrite Hd. done.
Qed.

Ltac next_attempt url D :=
  match goal with
  | |- context [retryLoop _ _ _ ?r (S ?todo) ?i ?w] =>
    destruct (delivered (net (fetches w))) eqn:D;
    [ let st := fresh "st" in
      let Hn := fresh "Hnet" in
      let Hr := fresh "Hrun" in
      destruct (attempt_succeeds url r todo i w D) as (st & Hn & Hr);
      rewrite Hr
    | rewrite (attempt_fails url r todo i w D) ]
  end.

Ltac settle_counts w n :=
  simpl;
  replace (_ - fetches w - 1)%nat with n by lia;
  simpl; rewrite <- ?app_assoc, ?app_nil_r; simpl;
  repeat split; try reflexivity; try lia.

Ltac first_iteration :=
  change (0 =? 3 - 1) with false; cbv iota;
  change (2 ^ 0 * 1000) with 1000; change (0 + 1) with 1.

Ltac second_iteration :=
  change (1 =? 3 - 1) with false; cbv iota;
  change (2 ^ 1 * 1000) with 2000; change (1 + 1) with 2.

Ltac third_iteration :=
  change (2 =? 3 - 1) with true; cbv iota.

(** The schedule of [fetchWithRetry] with its default of three attempts:
    between one and three requests, and before the k-th request (k = 2, 3)
    a wait of 1000 then 2000 ms; the chain is not touched. *)
Lemma default_schedule url (w : World Store) :
  let w' := (fetchWithRetry deliver net url 3 w).2 in
  (fetches w < fetches w' <= fetches w + 3)%nat /\
  sleeps w' = sleeps w ++ take (fetches w' - fetches w - 1) [1000; 2000] /\
  chain w' = chain w.
Proof.
  unfold fetchWithRetry. change (Z.to_nat 3) with 3%nat.
  next_attempt url D0; [settle_counts w 0%nat|].
  first_iteration.
  next_attempt url D1; [settle_counts w 1%nat|].
  second_iteration.
  next_attempt url D2; [settle_counts w 2%nat|].
  third_iteration. settle_counts w 2%nat.
Qed.

(** Two misses, then a delivery. *)
Lemma third_time_lucky url (w : World Store) :
  delivered (net (fetches w)) = false ->
  delivered (net (S (fetches w))) = false ->
  delivered (net (S (S (fetches w)))) = true ->
  exists st,
    fetchWithRetry deliver net url 3 w
    = (Returned (Some st),
       mkWorld (chain w) (deliver url (store w))
         (LogRetry 2 3 2000 :: LogRetry 1 3 1000 :: console w)
         (sleeps w ++ [1000; 2000]) (S (S (S (fetches w))))).
Proof.
  intros D0 D1 D2.
  unfold fetchWithRetry. change (Z.to_nat 3) with 3%nat.
  rewrite (attempt_fails url 3 2 0 w D0). first_iteration.
  rewrite attempt_fails by exact D1. second_iteration.
  match goal with
  | |- context [retryLoop _ _ _ _ 1 _ ?w2] =>
    destruct (attempt_succeeds url 3 0 2 w2 D2) as (st & _ & Hrun)
  end.
  exists st. rewrite Hrun. simpl. by rewrite <- app_assoc.
Qed.

(** Three misses: the last error is thrown to the caller. *)
Lemma all_three_fail url (w : World Store) :
  delivered (net (fetches w)) = false ->
  delivered (net (S (fetches w))) = false ->
  delivered (net (S (S (fetches w)))) = false ->
  fetchWithRetry deliver net url 3 w
  = (Thrown (errorOf (net (S (S (fetches w))))),
     mkWorld (chain w) (store w)
       (LogRetry 2 3 2000 :: LogRetry 1 3 1000 :: console w)
       (sleeps w ++ [1000; 2000]) (S (S (S (fetches w))))).
Proof.
  intros D0 D1 D2.
  unfold fetchWithRetry. change (Z.to_nat 3) with 3%nat.
  rewrite (attempt_fails url 3 2 0 w D0). first_iteration.
  rewrite attempt_fails by exact D1. second_iteration.
  rewrite attempt_fails by exact D2. third_iteration.
  unfold missed, sleep, log. simpl. by rewrite <- app_assoc.
Qed.

Lemma sendTx_Ok now c (w : World Store) s' :
  contract1.exec now c (chain w) = contract1.Ok s' ->
  sendTx now c w
  = contract1.Ok (mkWorld s' (store w) (console w) (sleeps w) (fetches w)).
Proof. intros H. unfold sendTx. by rewrite H. Qed.

(** C6, as amended.  With its default of 3, [fetchWithRetry] makes between
    one and three requests, waiting 1000 ms before the second and 2000 ms
    before the third; there is no third wait, so the 4000 ms step of the
    doubling formula is never taken.  When the first two requests fail and
    the third is answered with a success status, the confirm handler, once
    the ledger has confirmed the request, leaves the store with the PATCH
    for [accepted] applied and answers success with the transaction hash;
    the console holds the two retry lines and no error. *)
Theorem C6_three_attempts_two_waits url (w : World Store) :
  (let w' := (fetchWithRetry deliver net url 3 w).2 in
   (fetches w < fetches w' <= fetches w + 3)%nat /\
   sleeps w' = sleeps w ++ take (fetches w' - fetches w - 1) [1000; 2000]) /\
  (forall now sender requestId txHash recipient s',
     contract1.exec now
       (contract1.mkCall sender (contract1.ConfirmRequest requestId) recipient)
       (chain w) = contract1.Ok s' ->
     delivered (net (fetches w)) = false ->
     delivered (net (S (fetches w))) = false ->
     delivered (net (S (S (fetches w)))) = true ->
     confirmHandler deliver net now sender requestId txHash recipient w
     = (Json200 true txHash "Request confirmed",
        mkWorld s' (deliver (stateUrl txHash "accepted") (store w))
          (LogRetry 2 3 2000 :: LogRetry 1 3 1000 :: console w)
          (sleeps w ++ [1000; 2000]) (S (S (S (fetches w)))))).
Proof.
  split.
  - destruct (default_schedule url w) as (Hn & Hs & _). by split.
  - intros now sender requestId txHash recipient s' Hex D0 D1 D2.
    unfold confirmHandler. rewrite (sendTx_Ok _ _ _ _ Hex).
    unfold notify.
    edestruct (third_time_lucky (stateUrl txHash "accepted")) as (st & ->);
      [exact D0 | exact D1 | exact D2 |].
    reflexivity.
Qed.

(** C7.  When all three requests fail, [fetchWithRetry] throws the last
    error to the handler, which writes it to the console; the reply is still
    success with the transaction hash, the chain is in the state the
    confirmation left it in, and the store is as it was.  Whatever the
    network does, a confirmation that the ledger accepted is reported as
    success and stays on the chain. *)
Theorem C7_exhausted_retries_keep_the_confirmation
    now sender requestId txHash recipient (w : World Store) s' :
  contract1.exec now
    (contract1.mkCall sender (contract1.ConfirmRequest requestId) recipient)
    (chain w) = contract1.Ok s' ->
  (let '(reply, w') :=
     confirmHandler deliver net now sender requestId txHash recipient w in
   reply = Json200 true txHash "Request confirmed" /\ chain w' = s') /\
  (delivered (net (fetches w)) = false ->
   delivered (net (S (fetches w))) = false ->
   delivered (net (S (S (fetches w)))) = false ->
   let err := errorOf (net (S (S (fetches w)))) in
   let mined := mkWorld s' (store w) (console w) (sleeps w) (fetches w) in
   (fetchWithRetry deliver net (stateUrl txHash "accepted") 3 mined).1
   = Thrown err /\
   confirmHandler deliver net now sender requestId txHash recipient w
   = (Json200 true txHash "Request confirmed",
      mkWorld s' (store w)
        (LogUpdateFailed err :: LogRetry 2 3 2000 :: LogRetry 1 3 1000
           :: console w)
        (sleeps w ++ [1000; 2000]) (S (S (S (fetches w)))))).
Proof.
  intros Hex. split.
  - unfold confirmHandler. rewrite (sendTx_Ok _ _ _ _ Hex). unfold notify.
    pose proof (default_schedule (stateUrl txHash "accepted")
                  (mkWorld s' (store w) (console w) (sleeps w) (fetches w)))
      as (_ & _ & Hchain).
    destruct (fetchWithRetry _ _ _ _ _) as [done w1]. simpl in Hchain.
    split; [reflexivity|]. by destruct done.
  - intros D0 D1 D2 err mined.
    pose proof (all_three_fail (stateUrl txHash "accepted") mined D0 D1 D2)
      as Hrun.
    split; [by rewrite Hrun|].
    unfold confirmHandler. rewrite (sendTx_Ok _ _ _ _ Hex). unfold notify.
    fold mined. rewrite Hrun. reflexivity.
Qed.

End Facts.

Lemma C6_three_attempts_two_waits_witness :
  delivered (scenario.flaky 0) = false /\
  delivered (scenario.flaky 1) = false /\
  delivered (scenario.flaky 2) = true /\
  confirmHandler scenario.patched scenario.flaky 30 scenario.owner 0 "0xabc"
    (contract1.Accept contract1.CNil) scenario.world0
  = (Json200 true "0xabc" "Request confirmed",
     mkWorld scenario.one_confirmed
       (scenario.patched (stateUrl "0xabc" "accepted") ∅)
       [LogRetry 2 3 2000; LogRetry 1 3 1000] [1000; 2000] 3).
Proof.
  assert (delivered (scenario.flaky 0) = false) as D0 by reflexivity.
  assert (delivered (scenario.flaky 1) = false) as D1 by reflexivity.
  assert (delivered (scenario.flaky 2) = true) as D2 by reflexivity.
  repeat (split; [assumption|]).
  assert (contract1.exec 30
            (contract1.mkCall scenario.owner (contract1.ConfirmRequest 0)
               (contract1.Accept contract1.CNil))
            (chain scenario.world0)
          = contract1.Ok scenario.one_confirmed) as Hex
    by (vm_compute; reflexivity).
  exact (proj2 (C6_three_attempts_two_waits scenario.patched scenario.flaky
                  "" scenario.world0)
           30 scenario.owner 0 "0xabc" (contract1.Accept contract1.CNil)
           scenario.one_confirmed Hex D0 D1 D2).
Defined.

(** C6 as stated fails on the waits: when every request fails, all three
    attempts are made and the waits between them are 1000 and 2000 ms;
    there is no wait of 4000 ms. *)
Lemma C6_counterexample_no_third_wait :
  let w' := (fetchWithRetry scenario.patched scenario.down
               (stateUrl "0xabc" "accepted") 3 scenario.world0).2 in
  fetches w' = 3%nat /\
  sleeps w' = [1000; 2000] /\
  sleeps w' <> [1000; 2000; 4000] /\
  4000 ∉ sleeps w'.
Proof.
  vm_compute. split; [reflexivity|]. split; [reflexivity|].
  split; [discriminate|].
  intros H. apply list_elem_of_In in H. simpl in H.
  destruct H as [H | [H | []]]; discriminate.
Qed.

Lemma C7_exhausted_retries_keep_the_confirmation_witness :
  contract1.exec 30
    (contract1.mkCall scenario.owner (contract1.ConfirmRequest 0)
       (contract1.Accept contract1.CNil))
    (chain scenario.world0) = contract1.Ok scenario.one_confirmed /\
  confirmHandler scenario.patched scenario.down 30 scenario.owner 0 "0xabc"
    (contract1.Accept contract1.CNil) scenario.world0
  = (Json200 true "0xabc" "Request confirmed",
     mkWorld scenario.one_confirmed ∅
       [LogUpdateFailed (HttpError 503); LogRetry 2 3 2000;
        LogRetry 1 3 1000]
       [1000; 2000] 3).
Proof.
  assert (contract1.exec 30
            (contract1.mkCall scenario.owner (contract1.ConfirmRequest 0)
               (contract1.Accept contract1.CNil))
            (chain scenario.world0)
          = contract1.Ok scenario.one_confirmed) as Hex
    by (vm_compute; reflexivity).
  split; [exact Hex|].
  destruct (C7_exhausted_retries_keep_the_confirmation scenario.patched
              scenario.down 30 scenario.owner 0 "0xabc"
              (contract1.Accept contract1.CNil) scenario.world0
              scenario.one_confirmed Hex) as (_ & Hall).
  exact (proj2 (Hall eq_refl eq_refl eq_refl)).
Defined.

End bridge.

(** ** Invariants of the ledger under arbitrary calls *)

Module ledger_invariants.
Import contract1 contract1_facts ledger_terms.

(** A property of states kept by a successful [createRequest], by a
    payment, by a status write and by the two finalisation events is kept
    by every call, whatever the recipients do. *)
Lemma exec_preserves (P : State -> Prop) :
  (forall now value b n d o s rid s',
      createRequest now value b n d o s = Ok (rid, s') -> P s -> P s') ->
  (forall to v s, P s -> P (pay to v s)) ->
  (forall i st s, P s -> P (setStatus i st s)) ->
  (forall i s, P s -> P (emit (RequestConfirmed i) s)) ->
  (forall i reason s, P s -> P (emit (RequestCancelled i reason) s)) ->
  (forall c now s, P s -> P (step now c s)) /\
  (forall r now to v s s1, send now to v r s = Some s1 -> P s -> P s1) /\
  (forall cs now s, P s -> P (runAll now cs s)).
Proof.
  intros Hcreate Hpay Hset Hconf Hcanc.
  apply Call_mutind.
  - intros sender op r IH now s Hs. unfold step.
    destruct (exec now (mkCall sender op r) s) as [s'|e] eqn:E; simpl; [|done].
    destruct op as [value b n d o | i | i reason]; simpl in E.
    + destruct (createRequest now value b n d o s) as [[rid s'']|] eqn:C;
        [|discriminate].
      injection E as <-. eapply Hcreate; eauto.
    + unfold confirmRequest in E.
      destruct (negb (sender =? _)); [discriminate|].
      destruct (negb (bool_decide _)); [discriminate|].
      destruct (send now _ _ r s) as [s1|] eqn:S; [|discriminate].
      injection E as <-. apply Hconf, Hset. eauto.
    + unfold cancelRequest in E.
      destruct (negb (sender =? _)); [discriminate|].
      destruct (negb (bool_decide _)); [discriminate|].
      destruct (0 <? _).
      * destruct (send now _ _ r s) as [s1|] eqn:S; [|discriminate].
        injection E as <-. apply Hcanc, Hset. eauto.
      * injection E as <-. by apply Hcanc, Hset.
  - intros; discriminate.
  - intros cs IH now to v s s1. simpl.
    destruct (balance s <? v); [discriminate|]. intros [= <-] Hs.
    apply IH, Hpay, Hs.
  - intros now s Hs. exact Hs.
  - intros c IHc cs IHcs now s Hs. simpl. apply IHcs, IHc, Hs.
Qed.

Lemma sameButStatus_refl r : sameButStatus r r.
Proof. by repeat split. Qed.

Lemma sameButStatus_setStatus i st s j :
  sameButStatus (getReq s j) (getReq (setStatus i st s) j).
Proof.
  destruct (decide (i = j)) as [->|Hne].
  - unfold getReq at 2, setStatus; simpl. rewrite lookup_insert_eq. simpl.
    by repeat split.
  - rewrite getReq_setStatus_ne by done. apply sameButStatus_refl.
Qed.

Lemma sameButStatus_trans r1 r2 r3 :
  sameButStatus r1 r2 -> sameButStatus r2 r3 -> sameButStatus r1 r3.
Proof.
  intros (A1 & A2 & A3 & A4 & A5 & A6 & A7) (B1 & B2 & B3 & B4 & B5 & B6 & B7).
  repeat split; congruence.
Qed.

(** X1.  Of a created request only the status can ever change: whatever a
    call does, including anything the paid recipients do in between, the
    id, buyer, sizes, order hash, creation time and escrowed amount of every
    request below the id counter stay as they were, and the counter does
    not go back. *)
Theorem created_fields_are_immutable now c s i :
  i < nextRequestId s ->
  sameButStatus (getReq s i) (getReq (step now c s) i) /\
  nextRequestId s <= nextRequestId (step now c s).
Proof.
  intros Hi.
  set (P := fun s' => nextRequestId s <= nextRequestId s' /\
                      sameButStatus (getReq s i) (getReq s' i)).
  assert (P (step now c s)) as [Hn Hs].
  { apply (exec_preserves P); unfold P.
    - intros now' value b n d o s1 rid s2 C [Hn Hs].
      apply createRequest_Ok in C as (-> & Hn' & _ & _ & _ & Hold).
      split; [lia|]. rewrite Hold by lia. exact Hs.
    - intros to v s1 H. exact H.
    - intros j st s1 [Hn Hs]. split; [exact Hn|].
      eapply sameButStatus_trans; [exact Hs|]. apply sameButStatus_setStatus.
    - intros j s1 H. exact H.
    - intros j reason s1 H. exact H.
    - split; [lia | apply sameButStatus_refl]. }
  by split.
Qed.

Lemma created_fields_are_immutable_witness :
  0 < nextRequestId scenario.two_created /\
  amountPaid (getReq (step 30 scenario.greedy_confirm scenario.two_created) 0)
  = amountPaid (getReq scenario.two_created 0).
Proof.
  assert (0 < nextRequestId scenario.two_created) as Hi
    by (vm_compute; reflexivity).
  split; [exact Hi|].
  destruct (created_fields_are_immutable 30 scenario.greedy_confirm
              scenario.two_created 0 Hi) as [(_ & _ & _ & _ & _ & _ & H) _].
  exact H.
Defined.

Lemma createdIds_emit_other e s :
  match e with RequestCreated _ _ _ _ _ _ => False | _ => True end ->
  createdIds (emit e s) = createdIds s.
Proof. by destruct e. Qed.

(** X2.  Ids are handed out in sequence with no gap and no repeat: in every
    reachable state the [RequestCreated] events, oldest first, carry exactly
    the ids 0, 1, ..., nextRequestId - 1. *)
Theorem created_ids_are_sequential s :
  reachable s ->
  0 <= nextRequestId s /\ createdIds s = seqZ 0 (nextRequestId s).
Proof.
  induction 1 as [d | s now c _ IH].
  - split; [done | reflexivity].
  - apply (exec_preserves
             (fun s => 0 <= nextRequestId s /\
                       createdIds s = seqZ 0 (nextRequestId s)));
      try done.
    clear. intros now value b n d o s rid s' C [Hn Hids].
    unfold createRequest in C.
    destruct (b =? 0); [discriminate|].
    destruct (requiredPayment d n) as [req|]; [|discriminate].
    destruct (value <? req); [discriminate|].
    unfold checked_add in C.
    destruct (nextRequestId s + 1 <=? MAX_UINT256); [|discriminate].
    injection C as <- <-. simpl. split; [lia|].
    rewrite seqZ_app, <- Hids by lia.
    unfold createdIds, emit. cbn [trace omap list_omap].
    by rewrite reverse_cons.
Qed.

Lemma created_ids_are_sequential_witness :
  reachable scenario.two_created /\
  contract1.trace scenario.two_created
  = [RequestCreated 1 scenario.bob 2 60 5 scenario.price_2x60;
     RequestCreated 0 scenario.alice 2 60 5 scenario.price_2x60] /\
  createdIds scenario.two_created = seqZ 0 2.
Proof.
  assert (reachable scenario.two_created) as Hreach.
  { unfold scenario.two_created. repeat apply reach_step. apply reach_deploy. }
  split; [exact Hreach|]. split; [reflexivity|].
  exact (proj2 (created_ids_are_sequential _ Hreach)).
Defined.

(** X12.  A created request that is Confirmed or Cancelled when a call
    starts is the very same record when the call ends, whatever the call is
    and whatever the paid recipients do in between: the status checks of
    [confirmRequest] and [cancelRequest] keep every such call away from it,
    and [createRequest] only writes the slot at the counter. *)
Theorem finalised_requests_are_frozen now c s i :
  i < nextRequestId s -> status (getReq s i) <> Created ->
  getReq (step now c s) i = getReq s i.
Proof.
  intros Hi Hst. destruct (frozen_step c now s) as (_ & _ & Hr). by apply Hr.
Qed.

Lemma finalised_requests_are_frozen_witness :
  0 < nextRequestId scenario.one_confirmed /\
  status (getReq scenario.one_confirmed 0) <> Created /\
  getReq (step 50 scenario.greedy_confirm scenario.one_confirmed) 0
  = getReq scenario.one_confirmed 0.
Proof.
  assert (0 < nextRequestId scenario.one_confirmed) as Hi
    by (vm_compute; reflexivity).
  assert (status (getReq scenario.one_confirmed 0) <> Created) as Hst
    by (vm_compute; discriminate).
  split; [exact Hi|]. split; [exact Hst|].
  exact (finalised_requests_are_frozen 50 scenario.greedy_confirm
           scenario.one_confirmed 0 Hi Hst).
Defined.

End ledger_invariants.

(** ** Who can move the escrow, and how often *)

Module escrow_safety.
Import contract1 contract1_facts ledger_terms.

Lemma paidOut_pay to v s : paidOut (pay to v s) = paidOut s ++ [(to, v)].
Proof. unfold paidOut, pay. cbn [trace omap list_omap]. by rewrite reverse_cons. Qed.

Lemma paidOut_emit e s :
  match e with Transfer _ _ => False | _ => True end ->
  paidOut (emit e s) = paidOut s.
Proof. by destruct e. Qed.

Lemma paidOut_setStatus i st s : paidOut (setStatus i st s) = paidOut s.
Proof. reflexivity. Qed.

Lemma not_owner_step now sender op r s :
  sender <> deployerOperator s ->
  paidOut (step now (mkCall sender op r) s) = paidOut s /\
  deployerOperator (step now (mkCall sender op r) s) = deployerOperator s /\
  (forall i, i <> nextRequestId s ->
             getReq (step now (mkCall sender op r) s) i = getReq s i) /\
  (balance (step now (mkCall sender op r) s) = balance s \/
   exists value b n d o,
     op = CreateRequest value b n d o /\
     balance (step now (mkCall sender op r) s) = balance s + value).
Proof.
  intros Hne. apply Z.eqb_neq in Hne. unfold step.
  destruct op as [value b n d o | i | i reason]; simpl.
  - destruct (createRequest now value b n d o s) as [[rid s']|e] eqn:C; simpl;
      [|by auto].
    pose proof C as C'.
    apply createRequest_Ok in C as (-> & _ & Hd & Hb & _ & Hold).
    split; [|split; [exact Hd|split; [exact Hold|]]].
    + unfold createRequest in C'.
      destruct (b =? 0); [discriminate|].
      destruct (requiredPayment d n); [|discriminate].
      destruct (value <? _); [discriminate|].
      destruct (checked_add _ _); [|discriminate].
      by injection C' as <-.
    + right. by exists value, b, n, d, o.
  - unfold confirmRequest. rewrite Hne. simpl. by auto.
  - unfold cancelRequest. rewrite Hne. simpl. by auto.
Qed.

(** X3.  Only the owner can release escrow.  A call sent by anyone else,
    whatever it is, pays nothing out, leaves every stored request untouched
    except the slot a successful [createRequest] fills, and changes the
    balance only by adding the [msg.value] of that [createRequest]. *)
Theorem only_the_owner_releases_escrow now sender op r s :
  sender <> deployerOperator s ->
  let s' := step now (mkCall sender op r) s in
  paidOut s' = paidOut s /\
  deployerOperator s' = deployerOperator s /\
  (forall i, i <> nextRequestId s -> getReq s' i = getReq s i) /\
  (balance s' = balance s \/
   exists value b n d o,
     op = CreateRequest value b n d o /\ balance s' = balance s + value).
Proof. intros Hne. by apply not_owner_step. Qed.

Lemma only_the_owner_releases_escrow_witness :
  scenario.mallory <> deployerOperator scenario.two_created /\
  paidOut (step 30 (mkCall scenario.mallory (CancelRequest 0 "mine")
                      (Accept CNil)) scenario.two_created)
  = paidOut scenario.two_created.
Proof.
  assert (scenario.mallory <> deployerOperator scenario.two_created) as Hne
    by (vm_compute; discriminate).
  split; [exact Hne|].
  exact (proj1 (only_the_owner_releases_escrow 30 scenario.mallory
                  (CancelRequest 0 "mine") (Accept CNil)
                  scenario.two_created Hne)).
Defined.

(** What the recipient does while being paid, when none of its calls is
    sent by the owner: nothing is paid out, and the owner stays. *)
Lemma runAll_without_owner now cs s :
  noneSentBy (deployerOperator s) cs ->
  paidOut (runAll now cs s) = paidOut s /\
  deployerOperator (runAll now cs s) = deployerOperator s.
Proof.
  revert s. induction cs as [|[sender op r] cs IH]; [done|].
  intros s [Hne Hrest].
  change (runAll now (CCons (mkCall sender op r) cs) s)
    with (runAll now cs (step now (mkCall sender op r) s)).
  destruct (not_owner_step now sender op r s Hne) as (Hp & Hd & _).
  destruct (IH (step now (mkCall sender op r) s)) as [Hp' Hd'].
  { by rewrite Hd. }
  split; congruence.
Qed.

(** X4.  The escrow moves once unless the owner calls back.  When none of
    the calls the recipient makes while it is being paid is sent by the
    owner (in particular when the owner is an externally owned account), a
    confirmation by the owner of a Created request the ledger can pay
    succeeds, pays out exactly [amountPaid] to the owner and nothing else,
    and ends in Confirmed; a cancellation of a Created request with a
    positive escrow pays out exactly [amountPaid] to its [buyerOperator]
    and ends in Cancelled. *)
Theorem pays_once_unless_the_owner_reenters now i reason cs s :
  status (getReq s i) = Created ->
  amountPaid (getReq s i) <= balance s ->
  noneSentBy (deployerOperator s) cs ->
  (exists s',
     exec now (mkCall (deployerOperator s) (ConfirmRequest i) (Accept cs)) s
     = Ok s' /\
     paidOut s' = paidOut s ++ [(deployerOperator s, amountPaid (getReq s i))]
     /\ status (getReq s' i) = Confirmed) /\
  (0 < amountPaid (getReq s i) ->
   exists s',
     exec now (mkCall (deployerOperator s) (CancelRequest i reason)
                 (Accept cs)) s = Ok s' /\
     paidOut s' = paidOut s ++ [(buyerOperator (getReq s i),
                                 amountPaid (getReq s i))] /\
     status (getReq s' i) = Cancelled).
Proof.
  intros Hst Hbal Hcs.
  assert ((balance s <? amountPaid (getReq s i)) = false) as Hlt
    by (apply Z.ltb_ge; lia).
  split.
  - simpl. unfold confirmRequest.
    rewrite Z.eqb_refl. simpl. rewrite bool_decide_eq_true_2 by done. simpl.
    rewrite Hlt. eexists. split; [reflexivity|].
    rewrite getReq_emit, status_setStatus.
    rewrite paidOut_emit, paidOut_setStatus by done.
    destruct (runAll_without_owner now cs
                (pay (deployerOperator s) (amountPaid (getReq s i)) s))
      as [-> _]; [exact Hcs|].
    by rewrite paidOut_pay.
  - intros Hpos. simpl. unfold cancelRequest.
    rewrite Z.eqb_refl. simpl. rewrite bool_decide_eq_true_2 by done. simpl.
    assert ((0 <? amountPaid (getReq s i)) = true) as ->
      by (by apply Z.ltb_lt).
    simpl. rewrite Hlt. eexists. split; [reflexivity|].
    rewrite getReq_emit, status_setStatus.
    rewrite paidOut_emit, paidOut_setStatus by done.
    destruct (runAll_without_owner now cs
                (pay (buyerOperator (getReq s i)) (amountPaid (getReq s i)) s))
      as [-> _]; [exact Hcs|].
    by rewrite paidOut_pay.
Qed.

Lemma pays_once_unless_the_owner_reenters_witness :
  status (getReq scenario.two_created 0) = Created /\
  amountPaid (getReq scenario.two_created 0) <= balance scenario.two_created /\
  noneSentBy (deployerOperator scenario.two_created)
    (CCons (mkCall scenario.mallory (ConfirmRequest 0) (Accept CNil)) CNil) /\
  exists s',
    exec 30 (mkCall scenario.owner (ConfirmRequest 0)
               (Accept (CCons (mkCall scenario.mallory (ConfirmRequest 0)
                                 (Accept CNil)) CNil)))
      scenario.two_created = Ok s' /\
    paidOut s' = [(scenario.owner, scenario.price_2x60)] /\
    status (getReq s' 0) = Confirmed.
Proof.
  assert (status (getReq scenario.two_created 0) = Created) as H1
    by reflexivity.
  assert (amountPaid (getReq scenario.two_created 0)
          <= balance scenario.two_created) as H2
    by (vm_compute; discriminate).
  assert (noneSentBy (deployerOperator scenario.two_created)
            (CCons (mkCall scenario.mallory (ConfirmRequest 0) (Accept CNil))
               CNil)) as H3
    by (split; [vm_compute; discriminate | exact I]).
  repeat (split; [assumption|]).
  exact (proj1 (pays_once_unless_the_owner_reenters 30 0 "" _ _ H1 H2 H3)).
Defined.

End escrow_safety.

(** ** Solvency when recipients do not call back *)

Module solvency.
Import contract1 contract1_facts ledger_terms.

Lemma sumOver_ext f g l :
  (forall i, i ∈ l -> g i = f i) -> sumOver g l = sumOver f l.
Proof.
  induction l as [|x l IH]; intros H; simpl; [done|].
  rewrite H by constructor. rewrite IH; [done|].
  intros i Hi. apply H. by constructor.
Qed.

Lemma sumOver_app f l1 l2 :
  sumOver f (l1 ++ l2) = sumOver f l1 + sumOver f l2.
Proof. induction l1 as [|x l1 IH]; simpl; [done|]. rewrite IH. lia. Qed.

Lemma sumOver_change_one f g l i :
  NoDup l -> i ∈ l -> (forall j, j <> i -> g j = f j) ->
  sumOver g l = sumOver f l - f i + g i.
Proof.
  intros Hnd Hin Hsame. induction Hnd as [|x l Hx Hnd IH]; simpl.
  - by apply elem_of_nil in Hin.
  - apply elem_of_cons in Hin as [<- | Hin].
    + rewrite (sumOver_ext f g l); [lia|].
      intros j Hj. apply Hsame. intros ->. done.
    + rewrite IH by done. rewrite (Hsame x); [lia|].
      intros ->. done.
Qed.

Lemma sumOver_member f l i :
  (forall j, j ∈ l -> 0 <= f j) -> i ∈ l -> 0 <= f i <= sumOver f l.
Proof.
  intros Hpos. induction l as [|x l IH]; intros Hin; simpl.
  - by apply elem_of_nil in Hin.
  - assert (0 <= sumOver f l) as Hsum.
    { clear -Hpos. induction l as [|y l IHl]; simpl; [lia|].
      assert (0 <= f y) by (apply Hpos; do 2 constructor).
      assert (0 <= sumOver f l); [|lia].
      apply IHl. intros j Hj. apply Hpos.
      apply elem_of_cons in Hj as [-> | Hj]; [constructor|].
      by do 2 constructor. }
    assert (0 <= f x) by (apply Hpos; constructor).
    apply elem_of_cons in Hin as [-> | Hin]; [lia|].
    assert (0 <= f i <= sumOver f l); [|lia].
    apply IH; [|done]. intros j Hj. apply Hpos. by constructor.
Qed.

Lemma owed_setStatus_ne i st s j :
  j <> i -> owed (setStatus i st s) j = owed s j.
Proof. intros Hne. unfold owed. by rewrite getReq_setStatus_ne. Qed.

Lemma amountPaid_setStatus i st s j :
  amountPaid (getReq (setStatus i st s) j) = amountPaid (getReq s j).
Proof.
  destruct (decide (i = j)) as [->|Hne].
  - unfold getReq at 1, setStatus; simpl. by rewrite lookup_insert_eq.
  - by rewrite getReq_setStatus_ne.
Qed.

(** Finalising a Created slot takes its amount off the books. *)
Lemma escrowed_finalise i st s :
  sound s -> status (getReq s i) = Created -> st <> Created ->
  escrowed (setStatus i st s) = escrowed s - amountPaid (getReq s i).
Proof.
  intros (Hn & _ & _ & Hout) Hst Hfin.
  assert (owed s i = amountPaid (getReq s i)) as Hbefore.
  { unfold owed. by rewrite bool_decide_eq_true_2. }
  assert (owed (setStatus i st s) i = 0) as Hafter.
  { unfold owed. rewrite status_setStatus. by rewrite bool_decide_eq_false_2. }
  unfold escrowed. change (nextRequestId (setStatus i st s))
    with (nextRequestId s).
  fold (sumOver (owed (setStatus i st s)) (seqZ 0 (nextRequestId s))).
  fold (sumOver (owed s) (seqZ 0 (nextRequestId s))).
  destruct (decide (0 <= i < nextRequestId s)) as [Hin|Hnot].
  - rewrite (sumOver_change_one (owed s) _ _ i).
    + rewrite Hbefore, Hafter. lia.
    + apply NoDup_seqZ.
    + apply elem_of_seqZ. lia.
    + intros j Hj. by apply owed_setStatus_ne.
  - rewrite (Hout i Hnot), Z.sub_0_r. apply sumOver_ext.
    intros j Hj. apply owed_setStatus_ne. intros ->.
    apply elem_of_seqZ in Hj. lia.
Qed.

Lemma sound_finalise i st s (b : Z) (t : list Effect) :
  sound s -> status (getReq s i) = Created -> st <> Created ->
  b = balance s - amountPaid (getReq s i) ->
  sound (mkState (deployerOperator s) (nextRequestId s)
           (requests (setStatus i st s)) b t).
Proof.
  intros Hs Hst Hfin ->.
  pose proof (escrowed_finalise i st s Hs Hst Hfin) as He.
  destruct Hs as (Hn & Hb & Hpos & Hout).
  split; [exact Hn|]. split; [|split].
  - simpl. rewrite Hb, <- He. reflexivity.
  - intros j. exact (eq_ind_r (fun x => 0 <= x) (Hpos j)
                       (amountPaid_setStatus i st s j)).
  - intros j Hj. simpl in Hj.
    exact (eq_trans (amountPaid_setStatus i st s j) (Hout j Hj)).
Qed.

Lemma sound_createRequest now value b n d o s rid s' :
  0 <= value ->
  createRequest now value b n d o s = Ok (rid, s') -> sound s -> sound s'.
Proof.
  intros Hv C (Hn & Hb & Hpos & Hout).
  apply createRequest_Ok in C as (-> & Hn' & _ & Hb' & Hnew & Hold).
  split; [lia|]. split; [|split].
  - rewrite Hb', Hb. unfold escrowed. rewrite Hn'.
    rewrite seqZ_app by lia.
    fold (sumOver (owed s') (seqZ 0 (nextRequestId s) ++
                             seqZ (0 + nextRequestId s) 1)).
    fold (sumOver (owed s) (seqZ 0 (nextRequestId s))).
    rewrite sumOver_app.
    rewrite (sumOver_ext (owed s) (owed s') (seqZ 0 (nextRequestId s))).
    2:{ intros j Hj. apply elem_of_seqZ in Hj. unfold owed.
        rewrite Hold by lia. done. }
    change (seqZ (0 + nextRequestId s) 1) with [0 + nextRequestId s].
    rewrite Z.add_0_l. simpl. unfold owed. rewrite Hnew. simpl. lia.
  - intros j. destruct (decide (j = nextRequestId s)) as [->|Hne].
    + rewrite Hnew. simpl. exact Hv.
    + rewrite Hold by done. apply Hpos.
  - intros j Hj. rewrite Hold by lia. apply Hout. lia.
Qed.

Lemma sound_plain_step now c s : plain c -> sound s -> sound (step now c s).
Proof.
  destruct c as [sender op r]. intros [Hr Hop] Hs. unfold step.
  destruct op as [value b n d o | i | i reason]; simpl.
  - destruct (createRequest now value b n d o s) as [[rid s']|e] eqn:C;
      simpl; [|done].
    eapply sound_createRequest; eauto.
  - unfold confirmRequest.
    destruct (negb (sender =? _)); [done|].
    case_bool_decide as Hst; simpl; [|done].
    destruct Hr as [-> | ->]; simpl; [done|].
    destruct (balance s <? _); simpl; [done|].
    apply (sound_finalise i Confirmed s); try done.
  - unfold cancelRequest.
    destruct (negb (sender =? _)); [done|].
    case_bool_decide as Hst; simpl; [|done].
    destruct (0 <? amountPaid (getReq s i)) eqn:Hpos.
    + destruct Hr as [-> | ->]; simpl; [done|].
      destruct (balance s <? _); simpl; [done|].
      apply (sound_finalise i Cancelled s); try done.
    + simpl. apply (sound_finalise i Cancelled s); try done.
      apply Z.ltb_ge in Hpos. destruct Hs as (_ & _ & Hnonneg & _).
      specialize (Hnonneg i). simpl. lia.
Qed.

Lemma plainly_reachable_sound s : plainly_reachable s -> sound s.
Proof.
  induction 1 as [d | s now c _ IH Hc].
  - split; [done|]. split; [reflexivity|]. split; intros i; simpl; [|done].
    unfold getReq. simpl. by rewrite lookup_empty.
  - by apply sound_plain_step.
Qed.

(** X5.  As long as no recipient calls back into the ledger, the ledger
    holds exactly the escrow of the requests that are still Created, so
    every Created request can be paid: its amount is within the balance, and
    a confirmation by an owner that accepts the payment succeeds. *)
Theorem ledger_is_solvent_without_reentry s :
  plainly_reachable s ->
  balance s = escrowed s /\
  forall now i,
    0 <= i < nextRequestId s -> status (getReq s i) = Created ->
    0 <= amountPaid (getReq s i) <= balance s /\
    exists s',
      exec now (mkCall (deployerOperator s) (ConfirmRequest i) (Accept CNil))
        s = Ok s'.
Proof.
  intros Hreach.
  destruct (plainly_reachable_sound s Hreach) as (Hn & Hb & Hpos & Hout).
  split; [exact Hb|]. intros now i Hi Hst.
  assert (0 <= amountPaid (getReq s i) <= balance s) as Hamt.
  { rewrite Hb. unfold escrowed.
    fold (sumOver (owed s) (seqZ 0 (nextRequestId s))).
    assert (owed s i = amountPaid (getReq s i)) as <-.
    { unfold owed. by rewrite bool_decide_eq_true_2. }
    apply sumOver_member; [|apply elem_of_seqZ; lia].
    intros j _. unfold owed. case_bool_decide; [apply Hpos | lia]. }
  split; [exact Hamt|].
  eexists. apply escrow.confirm_without_reentry; [exact Hst | lia].
Qed.

Lemma ledger_is_solvent_without_reentry_witness :
  plainly_reachable scenario.one_confirmed /\
  balance scenario.one_confirmed = scenario.price_2x60 /\
  escrowed scenario.one_confirmed = scenario.price_2x60.
Proof.
  assert (plainly_reachable scenario.one_confirmed) as Hreach.
  { unfold scenario.one_confirmed, scenario.two_created.
    repeat (apply plain_step;
            [|split; [auto | first [exact I | vm_compute; discriminate]]]).
    apply plain_deploy. }
  split; [exact Hreach|].
  pose proof (proj1 (ledger_is_solvent_without_reentry _ Hreach)) as Hb.
  split; [reflexivity|]. rewrite <- Hb. reflexivity.
Defined.

End solvency.

(** ** Create, then finalise *)

Module round_trip.
Import contract1 contract1_facts ledger_terms.

Lemma paidOut_createRequest now value b n d o s rid s' :
  createRequest now value b n d o s = Ok (rid, s') -> paidOut s' = paidOut s.
Proof.
  unfold createRequest.
  destruct (b =? 0); [discriminate|].
  destruct (requiredPayment d n); [|discriminate].
  destruct (value <? _); [discriminate|].
  destruct (checked_add _ _); [|discriminate].
  by intros [= _ <-].
Qed.

(** X6.  What goes in comes out, whole.  A request created with a positive
    [msg.value] at or above the price (any excess included) stores that
    value as its escrow; if the owner then cancels it, exactly that value
    goes to the [buyerOperator] named in the request and the ledger's
    balance is what it was before the request; if the owner confirms it
    instead, exactly that value goes to the owner.  (Recipients accept and
    do not call back.) *)
Theorem escrow_round_trip now now' value b n d o reason s :
  b <> 0 -> 0 <= d -> 0 <= n -> d * n * RATE <= value ->
  0 < value <= MAX_UINT256 -> nextRequestId s < MAX_UINT256 ->
  0 <= balance s ->
  exists s1,
    createRequest now value b n d o s = Ok (nextRequestId s, s1) /\
    amountPaid (getReq s1 (nextRequestId s)) = value /\
    (exists s2,
       exec now' (mkCall (deployerOperator s1)
                    (CancelRequest (nextRequestId s) reason) (Accept CNil)) s1
       = Ok s2 /\
       paidOut s2 = paidOut s ++ [(b, value)] /\
       balance s2 = balance s /\
       status (getReq s2 (nextRequestId s)) = Cancelled) /\
    (exists s3,
       exec now' (mkCall (deployerOperator s1)
                    (ConfirmRequest (nextRequestId s)) (Accept CNil)) s1
       = Ok s3 /\
       paidOut s3 = paidOut s ++ [(deployerOperator s, value)] /\
       balance s3 = balance s /\
       status (getReq s3 (nextRequestId s)) = Confirmed).
Proof.
  intros Hb Hd Hn Hprice [Hpos Hmax] Hnext Hbal.
  destruct (proj2 (pricing.accepted_iff now value b n d o s
                     Hd Hn Hmax Hb Hnext) Hprice) as [s1 C].
  exists s1. split; [exact C|].
  pose proof (paidOut_createRequest _ _ _ _ _ _ _ _ _ C) as Hpaid.
  apply createRequest_Ok in C as (_ & _ & Hdep & Hbal1 & Hnew & _).
  assert (status (getReq s1 (nextRequestId s)) = Created) as Hst
    by (by rewrite Hnew).
  assert (amountPaid (getReq s1 (nextRequestId s)) = value) as Hamt
    by (by rewrite Hnew).
  assert (buyerOperator (getReq s1 (nextRequestId s)) = b) as Hbuyer
    by (by rewrite Hnew).
  split; [exact Hamt|]. split.
  - eexists. split.
    + apply escrow.cancel_without_reentry; [exact Hst|]. rewrite Hamt. lia.
    + rewrite getReq_emit, status_setStatus.
      rewrite escrow_safety.paidOut_emit by done.
      rewrite escrow_safety.paidOut_setStatus, escrow_safety.paidOut_pay.
      rewrite Hpaid, Hamt, Hbuyer. simpl. split; [done|]. split; [lia|done].
  - eexists. split.
    + apply escrow.confirm_without_reentry; [exact Hst|]. rewrite Hamt. lia.
    + rewrite getReq_emit, status_setStatus.
      rewrite escrow_safety.paidOut_emit by done.
      rewrite escrow_safety.paidOut_setStatus, escrow_safety.paidOut_pay.
      rewrite Hpaid, Hamt, Hdep. simpl. split; [done|]. split; [lia|done].
Qed.

Lemma escrow_round_trip_witness :
  scenario.alice <> 0 /\ 0 <= 60 /\ 0 <= 2 /\
  60 * 2 * RATE <= ether /\ 0 < ether <= MAX_UINT256 /\
  nextRequestId (constructor scenario.owner) < MAX_UINT256 /\
  0 <= balance (constructor scenario.owner) /\
  exists s1,
    createRequest 10 ether scenario.alice 2 60 5 (constructor scenario.owner)
    = Ok (0, s1) /\
    amountPaid (getReq s1 0) = ether.
Proof.
  assert (scenario.alice <> 0) as H1 by (vm_compute; discriminate).
  assert (0 <= 60) as H2 by (vm_compute; discriminate).
  assert (0 <= 2) as H3 by (vm_compute; discriminate).
  assert (60 * 2 * RATE <= ether) as H4 by (vm_compute; discriminate).
  assert (0 < ether <= MAX_UINT256) as H5
    by (split; vm_compute; [reflexivity | discriminate]).
  assert (nextRequestId (constructor scenario.owner) < MAX_UINT256) as H6
    by (vm_compute; reflexivity).
  assert (0 <= balance (constructor scenario.owner)) as H7
    by (vm_compute; discriminate).
  repeat (split; [assumption|]).
  destruct (escrow_round_trip 10 20 ether scenario.alice 2 60 5 "changed mind"
              (constructor scenario.owner) H1 H2 H3 H4 H5 H6 H7)
    as (s1 & C & Hamt & _).
  exists s1. split; [exact C | exact Hamt].
Defined.

End round_trip.

(** ** The retry loop in general, and the cancel handler *)

Module retrying.
Import admin_server.

Section Facts.

Context {Store : Type}.
Variable deliver : string -> Store -> Store.
Variable net : nat -> Outcome.

Lemma retryLoop_schedule url retries todo i (w : World Store) :
  Z.of_nat todo = retries - i -> 0 <= i -> (1 <= todo)%nat ->
  exists k : nat,
    (1 <= k <= todo)%nat /\
    ran deliver net url todo i w k
      (retryLoop deliver net url retries todo i w).1
      (retryLoop deliver net url retries todo i w).2.
Proof.
  revert i w. induction todo as [|t IH]; intros i w Hleft Hi Hpos; [lia|].
  destruct (delivered (net (fetches w))) eqn:D.
  - destruct (bridge.attempt_succeeds deliver net url retries t i w D)
      as (st & Hnet & ->).
    exists 1%nat. split; [lia|]. unfold ran. simpl.
    rewrite Nat.add_0_r, app_nil_r.
    unfold delivered in D. rewrite Hnet in D.
    repeat split; try done; try lia.
  - rewrite (bridge.attempt_fails deliver net url retries t i w D).
    destruct (i =? retries - 1) eqn:E.
    + apply Z.eqb_eq in E. assert (t = 0%nat) as -> by lia.
      exists 1%nat. split; [lia|]. unfold ran. simpl.
      rewrite Nat.add_0_r, app_nil_r.
      repeat split; try done; lia.
    + apply Z.eqb_neq in E.
      set (w3 := sleep (2 ^ i * 1000)
                   (log (LogRetry (i + 1) retries (2 ^ i * 1000)) (missed w))).
      destruct (IH (i + 1) w3) as (k & Hk & Hf & Hs & Hc & Hmiss & Hend);
        [lia | lia | lia |].
      exists (S k). split; [lia|]. unfold ran.
      change (fetches w3) with (S (fetches w)) in *.
      change (sleeps w3) with (sleeps w ++ [2 ^ i * 1000]) in Hs.
      change (chain w3) with (chain w) in Hc.
      change (store w3) with (store w) in Hend.
      split; [lia|]. split.
      { rewrite Hs, <- app_assoc. f_equal.
        replace (Z.of_nat (S k) - 1) with (Z.of_nat k) by lia.
        rewrite (seqZ_cons i) by lia. rewrite fmap_cons. simpl.
        replace (Z.succ i) with (i + 1) by lia.
        replace (Z.pred (Z.of_nat k)) with (Z.of_nat k - 1) by lia.
        reflexivity. }
      split; [exact Hc|]. split.
      { intros [|j] Hj.
        - by rewrite Nat.add_0_r.
        - replace (fetches w + S j)%nat with (S (fetches w) + j)%nat by lia.
          apply Hmiss. lia. }
      replace (fetches w + (S k - 1))%nat
        with (S (fetches w) + (k - 1))%nat by lia.
      destruct (retryLoop deliver net url retries t (i + 1) w3).1
        as [[st|]|e]; [exact Hend | exact Hend |].
      destruct Hend as (-> & He & Hd & Hst). done.
Qed.

Lemma ok_status st : ok st = true -> 200 <= st <= 299.
Proof.
  unfold ok. intros H. apply andb_prop in H as [H1 H2].
  apply Z.leb_le in H1. apply Z.leb_le in H2. lia.
Qed.

(** X7.  [fetchWithRetry] for any number of retries.  With [retries] at
    least 1 it makes some number k of requests between 1 and [retries];
    the first k - 1 of them failed, and before request j + 1 it waited
    1000 * 2^(j-1) ms (1 s, 2 s, 4 s, ...); it returns the response as soon
    as one has a 2xx status, and then the store applied the PATCH exactly
    once; it throws only after [retries] failures, with the last error, and
    then the store is untouched.  With [retries] at most 0 it makes no
    request, waits for nothing, and returns undefined without throwing. *)
Theorem retry_schedule url retries (w : World Store) :
  (retries <= 0 ->
   fetchWithRetry deliver net url retries w = (Returned None, w)) /\
  (1 <= retries ->
   exists k : nat,
     1 <= Z.of_nat k <= retries /\
     let c := (fetchWithRetry deliver net url retries w).1 in
     let w' := (fetchWithRetry deliver net url retries w).2 in
     fetches w' = (fetches w + k)%nat /\
     sleeps w'
     = sleeps w ++ ((fun j => 2 ^ j * 1000) <$> seqZ 0 (Z.of_nat k - 1)) /\
     chain w' = chain w /\
     (forall j, (j < k - 1)%nat ->
                delivered (net (fetches w + j)) = false) /\
     match c with
     | Returned (Some st) =>
         net (fetches w + (k - 1)) = Response st /\ 200 <= st <= 299 /\
         store w' = deliver url (store w)
     | Returned None => False
     | Thrown e =>
         Z.of_nat k = retries /\
         e = errorOf (net (fetches w + (k - 1))) /\
         store w' = store w
     end).
Proof.
  split.
  - intros Hle. unfold fetchWithRetry.
    replace (Z.to_nat retries) with 0%nat by lia. reflexivity.
  - intros Hge. unfold fetchWithRetry.
    destruct (retryLoop_schedule url retries (Z.to_nat retries) 0 w)
      as (k & Hk & Hf & Hs & Hc & Hmiss & Hend); [lia | lia | lia |].
    exists k. split; [lia|]. cbv zeta.
    split; [exact Hf|]. split; [exact Hs|]. split; [exact Hc|].
    split; [exact Hmiss|].
    destruct (retryLoop deliver net url retries (Z.to_nat retries) 0 w).1
      as [[st|]|e]; [|exact Hend|].
    + destruct Hend as (Hn & Hok & Hst). auto using ok_status.
    + destruct Hend as (Hk' & He & _ & Hst). split; [lia | done].
Qed.

(** X8.  Both handlers follow the ledger.  For a request id in uint256
    range: a confirmation or cancellation that the ledger reverts is
    answered with status 500 and the library's message for that revert, and
    nothing else happens: no request goes to the middleware.  A cancellation
    the ledger accepted is answered with success and the transaction hash
    whatever the network does; the chain is in the state the cancellation
    left; one to three requests were made; and the store either is
    untouched or has had the PATCH to [rejected] for that hash applied
    once. *)
Theorem handlers_follow_the_ledger
    now sender requestId reason txHash recipient (w : World Store) :
  is_uint256 requestId ->
  (forall e,
     contract1.exec now
       (contract1.mkCall sender (contract1.ConfirmRequest requestId) recipient)
       (chain w) = contract1.Revert e ->
     confirmHandler deliver net now sender requestId txHash recipient w
     = (Json500 (Reverted e), w)) /\
  (forall e,
     contract1.exec now
       (contract1.mkCall sender (contract1.CancelRequest requestId reason)
          recipient) (chain w) = contract1.Revert e ->
     cancelHandler deliver net now sender requestId reason txHash recipient w
     = (Json500 (Reverted e), w)) /\
  (forall s',
     contract1.exec now
       (contract1.mkCall sender (contract1.CancelRequest requestId reason)
          recipient) (chain w) = contract1.Ok s' ->
     let reply :=
       (cancelHandler deliver net now sender requestId reason txHash
          recipient w).1 in
     let w' :=
       (cancelHandler deliver net now sender requestId reason txHash
          recipient w).2 in
     reply = Json200 true txHash "Request cancelled" /\
     chain w' = s' /\
     (fetches w < fetches w' <= fetches w + 3)%nat /\
     (store w' = store w \/
      store w' = deliver (stateUrl txHash "rejected") (store w))).
Proof.
  intros _. split; [|split].
  - intros e Hex. unfold confirmHandler, sendTx. by rewrite Hex.
  - intros e Hex. unfold cancelHandler, sendTx. by rewrite Hex.
  - intros s' Hex. unfold cancelHandler.
    rewrite (bridge.sendTx_Ok _ _ _ _ Hex). unfold notify, fetchWithRetry.
    set (mined := mkWorld s' (store w) (console w) (sleeps w) (fetches w)).
    destruct (retryLoop_schedule (stateUrl txHash "rejected") 3
                (Z.to_nat 3) 0 mined)
      as (k & Hk & Hf & _ & Hc & _ & Hend); [done | done | simpl; lia |].
    change (Z.to_nat 3) with 3%nat in *.
    destruct (retryLoop deliver net (stateUrl txHash "rejected") 3 3 0 mined)
      as [c w1].
    simpl in Hf, Hc, Hend. cbv zeta.
    destruct c as [[st|]|e]; simpl; try done.
    + destruct Hend as (_ & _ & Hst).
      split; [done|]. split; [done|]. split; [lia|]. by right.
    + destruct Hend as (_ & _ & _ & Hst).
      split; [done|]. split; [done|]. split; [lia|]. by left.
Qed.

End Facts.

Lemma retry_schedule_witness :
  1 <= 4 /\
  exists k : nat,
    1 <= Z.of_nat k <= 4 /\
    fetches (fetchWithRetry scenario.patched scenario.down "u" 4
               scenario.world0).2 = (fetches scenario.world0 + k)%nat /\
    sleeps (fetchWithRetry scenario.patched scenario.down "u" 4
              scenario.world0).2
    = sleeps scenario.world0
      ++ ((fun j => 2 ^ j * 1000) <$> seqZ 0 (Z.of_nat k - 1)).
Proof.
  assert (1 <= 4) as H by (vm_compute; discriminate).
  split; [exact H|].
  destruct (proj2 (retry_schedule scenario.patched scenario.down "u" 4
                     scenario.world0) H) as (k & Hk & Hf & Hs & _).
  exists k. split; [exact Hk|]. split; [exact Hf | exact Hs].
Defined.

Lemma handlers_follow_the_ledger_witness :
  is_uint256 0 /\
  contract1.exec 30
    (contract1.mkCall scenario.mallory (contract1.ConfirmRequest 0)
       (contract1.Accept contract1.CNil)) (chain scenario.world0)
  = contract1.Revert contract1.NotDeployer /\
  confirmHandler scenario.patched scenario.flaky 30 scenario.mallory 0 "0xabc"
    (contract1.Accept contract1.CNil) scenario.world0
  = (Json500 (Reverted contract1.NotDeployer), scenario.world0).
Proof.
  assert (is_uint256 0) as Hid by (split; vm_compute; discriminate).
  assert (contract1.exec 30
            (contract1.mkCall scenario.mallory (contract1.ConfirmRequest 0)
               (contract1.Accept contract1.CNil)) (chain scenario.world0)
          = contract1.Revert contract1.NotDeployer) as Hex
    by (vm_compute; reflexivity).
  split; [exact Hid|]. split; [exact Hex|].
  exact (proj1 (handlers_follow_the_ledger scenario.patched scenario.flaky
                  30 scenario.mallory 0 "" "0xabc"
                  (contract1.Accept contract1.CNil) scenario.world0 Hid)
           contract1.NotDeployer Hex).
Defined.

End retrying.

(** ** The servers around the ledger *)

Module servers.
Import contract1 contract1_facts.

Lemma safeInteger_spec x :
  user_server.safeInteger x = true ->
  0 <= x <= user_server.MAX_SAFE_INTEGER.
Proof.
  unfold user_server.safeInteger. rewrite andb_true_iff, !Z.leb_le. done.
Qed.

Lemma safe_price_fits n d :
  0 <= n <= user_server.MAX_SAFE_INTEGER ->
  0 <= d <= user_server.MAX_SAFE_INTEGER ->
  0 <= d * n * RATE <= MAX_UINT256.
Proof.
  intros [Hn Hn'] [Hd Hd']. pose proof pricing.RATE_val as HR.
  assert (user_server.MAX_SAFE_INTEGER = 9007199254740991) as HS
    by reflexivity.
  assert (d * n <= 9007199254740991 * 9007199254740991) as Hdn by nia.
  assert (9007199254740991 * 9007199254740991 * RATE <= MAX_UINT256) as Hmax
    by (vm_compute; discriminate).
  split; [nia|].
  apply Z.le_trans with (9007199254740991 * 9007199254740991 * RATE);
    [|exact Hmax].
  rewrite HR. nia.
Qed.

Lemma mine_counter s txs :
  nextRequestId s <= nextRequestId (user_server.mine s txs).
Proof.
  revert s. induction txs as [|[t c] txs IH]; intros s; simpl; [lia|].
  destruct (frozen_step c t s) as (_ & Hn & _).
  specialize (IH (step t c s)). lia.
Qed.

(** X9.  The user panel pays the price to the wei.  Whatever the inputs,
    its create handler is never refused by the ledger for an insufficient
    amount.  Whenever it answers success, the ledger accepted a
    [createRequest] carrying exactly
    [durationMins * numUsers * 0.00012 ether], which the wallet could
    afford on top of the fee; the request is stored at the id counter's old
    value, Created, with the wallet as buyer and that price as escrow.  The
    id in the answer comes from a later read of the counter: it is never
    below the id the request got, and it is that id when nothing was mined
    in between. *)
Theorem user_panel_pays_the_exact_price
    now wallet funds fee n d h txHash between s :
  (user_server.createHandler now wallet funds fee n d h txHash between s).1
  <> user_server.Create500
       (user_server.CallFailed (admin_server.Reverted InsufficientAmount)) /\
  (forall rid tx msg s_end,
     user_server.createHandler now wallet funds fee n d h txHash between s
     = (user_server.Created200 rid tx msg, s_end) ->
     exists s',
       createRequest now (d * n * RATE) wallet n d h s
       = Ok (nextRequestId s, s') /\
       getReq s' (nextRequestId s)
       = mkRequest (nextRequestId s) wallet n d h Created now (d * n * RATE)
       /\ balance s' = balance s + d * n * RATE
       /\ d * n * RATE + fee <= funds
       /\ s_end = user_server.mine s' between
       /\ nextRequestId s <= rid
       /\ (between = [] -> rid = nextRequestId s)).
Proof.
  unfold user_server.createHandler. cbv zeta.
  replace (RATE * d * n) with (d * n * RATE) by lia.
  destruct (_ && _) eqn:G; cbn [negb].
  2:{ split; [discriminate | intros; discriminate]. }
  apply andb_true_iff in G as [Hn Hd].
  apply safeInteger_spec in Hn. apply safeInteger_spec in Hd.
  destruct (safe_price_fits n d Hn Hd) as [Hpos Hfit].
  destruct (funds <? d * n * RATE + fee) eqn:F.
  { split; [discriminate | intros; discriminate]. }
  apply Z.ltb_ge in F. cbn [exec].
  destruct (createRequest now (d * n * RATE) wallet n d h s)
    as [[rid0 s']|e] eqn:C; cbn [dropId].
  - split; [discriminate|]. intros rid tx msg s_end [= <- _ _ <-].
    exists s'. pose proof C as C'.
    apply createRequest_Ok in C' as (-> & Hn' & _ & Hb & Hnew & _).
    split; [reflexivity|]. split; [exact Hnew|]. split; [exact Hb|].
    split; [exact F|]. split; [reflexivity|].
    pose proof (mine_counter s' between) as Hmono.
    split; [lia|]. intros ->. simpl. lia.
  - split; [|intros; discriminate].
    intros [= ->]. unfold createRequest in C.
    destruct (wallet =? 0); [discriminate|].
    rewrite pricing.requiredPayment_exact in C by lia.
    apply Z.leb_le in Hfit. rewrite Hfit, Z.ltb_irrefl in C.
    destruct (checked_add _ _); discriminate.
Qed.

Lemma user_panel_pays_the_exact_price_witness :
  (user_server.createHandler 50 scenario.alice ether 21000 2 60 5 "0xdef" []
     scenario.two_created).1
  = user_server.Created200 2 "0xdef" "Request created" /\
  exists s',
    createRequest 50 (60 * 2 * RATE) scenario.alice 2 60 5
      scenario.two_created
    = Ok (nextRequestId scenario.two_created, s') /\
    amountPaid (getReq s' (nextRequestId scenario.two_created))
    = 60 * 2 * RATE.
Proof.
  assert (user_server.createHandler 50 scenario.alice ether 21000 2 60 5
            "0xdef" [] scenario.two_created
          = (user_server.Created200 2 "0xdef" "Request created",
             (user_server.createHandler 50 scenario.alice ether 21000 2 60 5
                "0xdef" [] scenario.two_created).2)) as Hrun
    by (vm_compute; reflexivity).
  split; [by rewrite Hrun|].
  destruct (proj2 (user_panel_pays_the_exact_price 50 scenario.alice ether
                     21000 2 60 5 "0xdef" [] scenario.two_created)
              _ _ _ _ Hrun) as (s' & C & Hreq & _).
  exists s'. split; [exact C|]. by rewrite Hreq.
Defined.

(** When another request is created before the counter is read, the id in
    the answer is that other request's. *)
Lemma reported_id_can_be_anothers :
  let late := [(51, mkCall scenario.bob
                      (CreateRequest scenario.price_2x60 scenario.bob 2 60 6)
                      Reject)] in
  let run := user_server.createHandler 50 scenario.alice ether 21000 2 60 5
               "0xdef" late scenario.two_created in
  run.1 = user_server.Created200 3 "0xdef" "Request created" /\
  buyerOperator (getReq run.2 2) = scenario.alice /\
  buyerOperator (getReq run.2 3) = scenario.bob.
Proof. vm_compute. repeat split. Qed.

Section Formatting.

Variable toString : Z -> string.
Variable showAddress : Z -> string.
Variable formatEther : Z -> string.
Variable toLocaleString : Z -> string.
Variable decodeStatus : Status -> listing.JsValue.

Local Abbreviation fmt :=
  (listing.formatRequests toString showAddress formatEther toLocaleString
     decodeStatus).

Lemma formatted_ids (l : list Request) :
  listing.row_id <$> fmt l = toString <$> (id <$> l).
Proof. induction l as [|r l IH]; [done|]. cbn. f_equal. exact IH. Qed.

Lemma formatted_labels (st : Status) (ids : list Z) s :
  Forall (fun i => status (getReq s i) = st) ids ->
  Forall (fun row => listing.row_status row
                     = listing.statusLabel (decodeStatus st))
    (fmt (getReq s <$> ids)).
Proof.
  induction 1 as [|i l Hi _ IH]; [constructor|].
  cbn. constructor; [|exact IH]. cbn. by rewrite Hi.
Qed.

Lemma idsWith_status st s :
  Forall (fun i => status (getReq s i) = st) (idsWith st s).
Proof.
  apply Forall_forall. intros i Hi. by apply idsWith_elem in Hi as [Hst _].
Qed.

(** X10.  The list endpoints.  In a reachable state, a sender other than
    the owner gets status 500 with the not-the-deployer message from all
    three (the library's message for that revert).  The owner gets one row
    per request with the status asked for,
    in ascending id order.  The status label on the rows is right when the
    enum arrives as a number; when it arrives as a bigint, both strict
    comparisons with 0 and 1 fail and every row of every list is labelled
    Cancelled. *)
Theorem list_endpoints sender s :
  reachable s ->
  (sender <> deployerOperator s ->
   listing.pendingHandler toString showAddress formatEther toLocaleString
     decodeStatus sender s
   = listing.List500 (admin_server.Reverted NotDeployer) /\
   listing.completedHandler toString showAddress formatEther toLocaleString
     decodeStatus sender s
   = listing.List500 (admin_server.Reverted NotDeployer) /\
   listing.cancelledHandler toString showAddress formatEther toLocaleString
     decodeStatus sender s
   = listing.List500 (admin_server.Reverted NotDeployer)) /\
  (sender = deployerOperator s ->
   exists pending completed cancelled,
     listing.pendingHandler toString showAddress formatEther toLocaleString
       decodeStatus sender s = listing.Rows pending /\
     listing.completedHandler toString showAddress formatEther toLocaleString
       decodeStatus sender s = listing.Rows completed /\
     listing.cancelledHandler toString showAddress formatEther toLocaleString
       decodeStatus sender s = listing.Rows cancelled /\
     listing.row_id <$> pending = toString <$> idsWith Created s /\
     listing.row_id <$> completed = toString <$> idsWith Confirmed s /\
     listing.row_id <$> cancelled = toString <$> idsWith Cancelled s /\
     ((forall st, decodeStatus st = listing.asNumber st) ->
      Forall (fun row => listing.row_status row = "Created") pending /\
      Forall (fun row => listing.row_status row = "Confirmed") completed /\
      Forall (fun row => listing.row_status row = "Cancelled") cancelled) /\
     ((forall st, decodeStatus st = listing.asBigInt st) ->
      Forall (fun row => listing.row_status row = "Cancelled")
        (pending ++ completed ++ cancelled))).
Proof.
  intros Hreach. pose proof (reachable_ids_ok s Hreach) as Hok.
  unfold listing.pendingHandler, listing.completedHandler,
    listing.cancelledHandler, listing.listHandler.
  split.
  - intros Hne. apply Z.eqb_neq in Hne.
    unfold getPendingRequests, getConfirmedRequests, getCancelledRequests,
      listByStatus.
    rewrite Hne. done.
  - intros ->.
    unfold getPendingRequests, getConfirmedRequests, getCancelledRequests.
    rewrite !listByStatus_owner.
    eexists _, _, _. do 3 (split; [reflexivity|]).
    rewrite !formatted_ids, !ids_of_listed by done.
    do 3 (split; [reflexivity|]).
    pose proof (formatted_labels Created _ s (idsWith_status Created s)) as HP.
    pose proof (formatted_labels Confirmed _ s (idsWith_status Confirmed s))
      as HC.
    pose proof (formatted_labels Cancelled _ s (idsWith_status Cancelled s))
      as HX.
    split.
    + intros Hnum. rewrite !Hnum in HP, HC, HX. by repeat split.
    + intros Hbig. rewrite !Hbig in HP, HC, HX.
      rewrite !Forall_app. by repeat split.
Qed.

End Formatting.

Lemma list_endpoints_witness :
  reachable scenario.two_created /\
  exists pending,
    listing.pendingHandler single_server.decimal single_server.decimal
      single_server.decimal single_server.decimal listing.asBigInt
      scenario.owner scenario.two_created = listing.Rows pending /\
    listing.row_id <$> pending = ["0"; "1"] /\
    Forall (fun row => listing.row_status row = "Cancelled") pending.
Proof.
  assert (reachable scenario.two_created) as Hreach.
  { unfold scenario.two_created. repeat apply reach_step. apply reach_deploy. }
  split; [exact Hreach|].
  destruct (proj2 (list_endpoints single_server.decimal single_server.decimal
                     single_server.decimal single_server.decimal
                     listing.asBigInt scenario.owner scenario.two_created
                     Hreach) eq_refl)
    as (p & c & x & Hp & _ & _ & Hids & _ & _ & _ & Hbig).
  exists p. split; [exact Hp|]. split; [exact Hids|].
  specialize (Hbig (fun st => eq_refl)).
  apply Forall_app in Hbig as [Hbig _]. exact Hbig.
Defined.

Section Guard.

Variable toString : Z -> string.
Variable trim : string -> string.
Variable BigInt : string -> option Z.

Lemma isPending_spec s requestId :
  ids_ok s ->
  single_server.isPending toString trim
    (getReq s <$> idsWith Created s) requestId = true <->
  exists i, 0 <= i < nextRequestId s /\ status (getReq s i) = Created /\
            toString i = trim requestId.
Proof.
  intros [_ Hid]. unfold single_server.isPending.
  rewrite existsb_exists. split.
  - intros (r & Hin & Heq). apply String.eqb_eq in Heq.
    apply list_elem_of_In, list_elem_of_fmap in Hin as (i & -> & Hi).
    apply idsWith_elem in Hi as [Hst Hrange].
    exists i. rewrite Hid in Heq by done. done.
  - intros (i & Hrange & Hst & Heq).
    exists (getReq s i). split.
    + apply list_elem_of_In, list_elem_of_fmap. exists i.
      split; [done|]. by apply idsWith_elem.
    + apply String.eqb_eq. by rewrite Hid.
Qed.

(** X11.  The single-server variant only finalises requests that are
    pending.  Provided [BigInt] reads a numeral with surrounding white
    space as the number [toString] prints that way, in a reachable state:
    whenever its confirm or cancel handler answers success, the id it sent
    to the ledger is below the id counter, was Created, and prints as the
    trimmed [requestId], and the sender is the owner; and when the owner
    posts an id that no Created request prints as, the answer is 400
    [Request not found] and the ledger is not called.  An id that was never
    created is therefore never finalised through these handlers. *)
Theorem single_server_only_finalises_pending
    (op : Z -> Op) now sender contractAddress requestId txHash recipient s :
  (forall str i, trim str = toString i -> BigInt str = Some i) ->
  reachable s ->
  (forall tx s',
     single_server.guarded toString trim BigInt op now sender contractAddress
       requestId txHash recipient s = (single_server.R200 tx, s') ->
     exists i,
       0 <= i < nextRequestId s /\ status (getReq s i) = Created /\
       toString i = trim requestId /\ sender = deployerOperator s /\
       exec now (mkCall sender (op i) recipient) s = Ok s') /\
  (contractAddress <> "" -> sender = deployerOperator s ->
   (forall i, 0 <= i < nextRequestId s -> status (getReq s i) = Created ->
              toString i <> trim requestId) ->
   single_server.guarded toString trim BigInt op now sender contractAddress
     requestId txHash recipient s
   = (single_server.R400 "Request not found", s)).
Proof.
  intros Hparse Hreach. pose proof (reachable_ids_ok s Hreach) as Hok.
  unfold single_server.guarded. split.
  - intros tx s'.
    destruct (String.eqb contractAddress ""); [discriminate|].
    destruct (sender =? deployerOperator s) eqn:Hs.
    2:{ unfold getPendingRequests, listByStatus. rewrite Hs. discriminate. }
    apply Z.eqb_eq in Hs. subst sender.
    unfold getPendingRequests. rewrite listByStatus_owner.
    destruct (single_server.isPending _ _ _ _) eqn:Hp; cbn [negb];
      [|discriminate].
    apply isPending_spec in Hp as (i & Hrange & Hst & Heq); [|done].
    rewrite (Hparse requestId i) by done.
    destruct (exec now (mkCall (deployerOperator s) (op i) recipient) s)
      as [s1|e] eqn:E; [|discriminate].
    intros [= _ <-]. exists i. done.
  - intros Haddr -> Hnone.
    apply String.eqb_neq in Haddr. rewrite Haddr.
    unfold getPendingRequests. rewrite listByStatus_owner.
    destruct (single_server.isPending _ _ _ _) eqn:Hp; cbn [negb]; [|done].
    apply isPending_spec in Hp as (i & Hrange & Hst & Heq); [|done].
    by destruct (Hnone i Hrange Hst).
Qed.

End Guard.

Lemma parse_decimal str i :
  str = single_server.decimal i -> single_server.parseDecimal str = Some i.
Proof.
  intros ->. unfold single_server.parseDecimal, single_server.decimal.
  rewrite DecimalString.NilZero.isi.
  - simpl. by rewrite DecimalZ.of_to.
  - destruct i; simpl; try discriminate.
    intros [= H]. by apply DecimalPos.Unsigned.to_uint_nonnil in H.
  - destruct i; simpl; try discriminate.
    intros [= H]. by apply DecimalPos.Unsigned.to_uint_nonnil in H.
Qed.

Lemma single_server_only_finalises_pending_witness :
  (forall str i, (fun x : string => x) str = single_server.decimal i ->
                 single_server.parseDecimal str = Some i) /\
  reachable (constructor scenario.owner) /\
  single_server.confirmHandler single_server.decimal (fun x => x)
    single_server.parseDecimal 10 scenario.owner "0xc0de" "5" "0xabc"
    (Accept CNil) (constructor scenario.owner)
  = (single_server.R400 "Request not found", constructor scenario.owner).
Proof.
  assert (forall str i, (fun x : string => x) str = single_server.decimal i ->
                        single_server.parseDecimal str = Some i) as Hparse
    by exact parse_decimal.
  assert (reachable (constructor scenario.owner)) as Hreach
    by apply reach_deploy.
  split; [exact Hparse|]. split; [exact Hreach|].
  apply (proj2 (single_server_only_finalises_pending single_server.decimal
                  (fun x => x) single_server.parseDecimal ConfirmRequest 10
                  scenario.owner "0xc0de" "5" "0xabc" (Accept CNil)
                  (constructor scenario.owner) Hparse Hreach)).
  - discriminate.
  - reflexivity.
  - intros i Hi. simpl in Hi. lia.
Defined.

End servers.
